(** * Collision, gravity and warp core of landstalker-remaster

    A shallow embedding of [collision.py], [boundingbox.py], [heightmap.py],
    [warp.py], [drawable.py] and the physics methods of [game.py].
    World coordinates are Python floats; every value these functions touch
    (tile units, the 1/8 and 1/16 margins, integer tile sizes) is a dyadic
    rational, which the floats hold exactly, so they are modelled as [Q]. *)

From Stdlib Require Import QArith Qabs Qround ZArith List Bool Lia Lqa.
From Stdlib Require Strings.String Strings.Ascii.
Import ListNotations.

Open Scope Q_scope.

(** ** Python-level helpers *)

Definition Qltb (a b : Q) : bool := negb (Qle_bool b a).
(** [max(a, b)]: the later argument wins only when strictly greater. *)
Definition py_max (a b : Q) : Q := if Qltb a b then b else a.


(** [int(q)] on a float: truncation toward zero. *)
Definition py_int (q : Q) : Z := Z.quot (Qnum q) (Zpos (Qden q)).

(** Exceptions the modelled code can raise. *)
Inductive PyExc := IndexError | ZeroDivisionError | TypeError.

Inductive Result (A : Type) : Type :=
| Ok : A -> Result A
| Raise : PyExc -> Result A.
Arguments Ok {A} _.
Arguments Raise {A} _.

Definition bind {A B} (m : Result A) (k : A -> Result B) : Result B :=
  match m with Ok a => k a | Raise e => Raise e end.
Notation "x <- m ;; k" := (bind m (fun x => k)) (at level 61, m at next level, right associativity).

(** [a // b] on a float and a non-zero int, followed by [int(...)]. *)
Definition py_floordiv_int (a : Q) (b : Z) : Result Z :=
  if (b =? 0)%Z then Raise ZeroDivisionError else Ok (Qfloor (a / inject_Z b)).

(** [lst[i]] for a non-negative index. *)
Definition py_index {A} (l : list A) (i : Z) : Result A :=
  if (i <? 0)%Z then Raise IndexError
  else match nth_error l (Z.to_nat i) with Some a => Ok a | None => Raise IndexError end.

(** ** Data model *)

Record Vector3 := mkV3 { vx : Q; vy : Q; vz : Q }.

(** [boundingbox.BoundingBox(world_pos, height_in_tiles, size_in_tiles)] *)
Record BoundingBox := mkBBox {
  world_pos : Vector3;
  height_in_tiles : Q;
  size_in_tiles : Q
}.

(** The fields of an [Entity] the core reads; [ent_id] stands for Python
    object identity ([is]). *)
Record Entity := mkEntity {
  ent_id : nat;
  bbox : BoundingBox;
  solid : bool;
  visible : bool
}.

Record Hero := mkHero {
  hero_world_pos : Vector3;          (* hero.get_world_pos() *)
  hero_bbox : BoundingBox;           (* hero.bbox *)
  grabbed_entity : option nat;       (* hero.grabbed_entity, by identity *)
  is_grabbing : bool;
  touch_ground : bool;
  is_jumping : bool
}.

(** [entity is hero.grabbed_entity] *)
Definition is_grabbed (hero : Hero) (e : Entity) : bool :=
  match grabbed_entity hero with
  | Some i => Nat.eqb i (ent_id e)
  | None => false
  end.

(** ** heightmap.py *)
Module Heightmap.

Record HeightmapCell := mkCell { height : Z; walkable : Z }.

Definition is_walkable (c : HeightmapCell) : bool := (walkable c <? 4)%Z.

Record Heightmap := mkHeightmap {
  left_offset : Z;
  top_offset : Z;
  cells : list (list HeightmapCell)
}.

Definition get_width (hm : Heightmap) : Z :=
  match cells hm with [] => 0%Z | row :: _ => Z.of_nat (length row) end.

Definition get_height (hm : Heightmap) : Z := Z.of_nat (length (cells hm)).

(** [get_cell]: the guard reads the width of row 0; the lookup
    [self.cells[y][x]] raises on a shorter row. *)
Definition get_cell (hm : Heightmap) (x y : Z) : Result (option HeightmapCell) :=
  if ((0 <=? y) && (y <? Z.of_nat (length (cells hm))) &&
      (0 <=? x) && (x <? get_width hm))%Z
  then row <- py_index (cells hm) y ;; c <- py_index row x ;; Ok (Some c)
  else Ok None.

End Heightmap.

(** ** collision.py *)
Module Collision.
Import Heightmap.

(** [MARGIN: float = 2.0 / 16.0] *)
Definition MARGIN : Q := 2 # 16.

Definition check_entity_collision_3d (moving_bbox target_bbox : BoundingBox) : bool :=
  let me_x := vx (world_pos moving_bbox) + MARGIN in
  let me_y := vy (world_pos moving_bbox) + MARGIN in
  let me_w := size_in_tiles moving_bbox - MARGIN * 2 in
  let me_h := size_in_tiles moving_bbox - MARGIN * 2 in
  let te_x := vx (world_pos target_bbox) + MARGIN - 12 in
  let te_y := vy (world_pos target_bbox) + MARGIN - 12 in
  let te_w := size_in_tiles target_bbox - MARGIN * 2 in
  let te_h := size_in_tiles target_bbox - MARGIN * 2 in
  let xy_collision :=
    Qltb me_x (te_x + te_w) && Qltb te_x (me_x + me_w) &&
    Qltb me_y (te_y + te_h) && Qltb te_y (me_y + me_h) in
  if negb xy_collision then false
  else
    let moving_z := vz (world_pos moving_bbox) in
    let target_z := vz (world_pos target_bbox) in
    let moving_z_height := height_in_tiles moving_bbox in
    let target_z_height := height_in_tiles target_bbox in
    Qltb moving_z (target_z + target_z_height) &&
    Qltb target_z (moving_z + moving_z_height).

Fixpoint first_colliding (temp_bbox : BoundingBox) (entities : list Entity) : option Entity :=
  match entities with
  | [] => None
  | entity :: rest =>
      if check_entity_collision_3d temp_bbox (bbox entity) then Some entity
      else first_colliding temp_bbox rest
  end.

Definition check_collids_entity (hero : Hero) (x y : Q) (entities : list Entity) : option Entity :=
  let hero_pos := hero_world_pos hero in
  let temp_bbox := mkBBox (mkV3 x y (vz hero_pos))
                          (height_in_tiles (hero_bbox hero))
                          (size_in_tiles (hero_bbox hero)) in
  first_colliding temp_bbox entities.

Definition resolve_entity_collision (hero : Hero) (entities : list Entity) (new_x new_y : Q)
  : Q * Q * option Entity :=
  let hero_pos := hero_world_pos hero in
  match check_collids_entity hero new_x new_y entities with
  | None => (new_x, new_y, None)
  | Some _ =>
    match check_collids_entity hero new_x (vy hero_pos) entities with
    | None => (new_x, vy hero_pos, None)
    | Some _ =>
      match check_collids_entity hero (vx hero_pos) new_y entities with
      | None => (vx hero_pos, new_y, None)
      | Some touched => (vx hero_pos, vy hero_pos, Some touched)
      end
    end
  end.

(** The XY overlap of a check rectangle against an entity's footprint,
    as written in [get_entity_top_at_position] and
    [get_entity_hero_is_standing_on]. *)
Definition xy_overlap (check_x check_y check_width check_height : Q) (entity : Entity) : bool :=
  let entity_x := vx (world_pos (bbox entity)) + MARGIN - 12 in
  let entity_y := vy (world_pos (bbox entity)) + MARGIN - 12 in
  let entity_w := size_in_tiles (bbox entity) - MARGIN * 2 in
  let entity_h := size_in_tiles (bbox entity) - MARGIN * 2 in
  Qltb check_x (entity_x + entity_w) && Qltb entity_x (check_x + check_width) &&
  Qltb check_y (entity_y + entity_h) && Qltb entity_y (check_y + check_height).

Definition entity_top (entity : Entity) : Q :=
  vz (world_pos (bbox entity)) + height_in_tiles (bbox entity).

Fixpoint top_loop (entities : list Entity) (check_x check_y check_width check_height hero_z : Q)
         (highest_top : option Q) : option Q :=
  match entities with
  | [] => highest_top
  | entity :: rest =>
    let highest_top' :=
      if negb (solid entity) || negb (visible entity) then highest_top
      else if negb (xy_overlap check_x check_y check_width check_height entity) then highest_top
      else
        let entity_top_tiles := entity_top entity in
        if Qle_bool entity_top_tiles (hero_z + (1 # 16)) then
          match highest_top with
          | None => Some entity_top_tiles
          | Some h => if Qltb h entity_top_tiles then Some entity_top_tiles else highest_top
          end
        else highest_top in
    top_loop rest check_x check_y check_width check_height hero_z highest_top'
  end.

Definition get_entity_top_at_position (entities : list Entity)
           (check_x check_y check_width check_height hero_z : Q) : option Q :=
  top_loop entities check_x check_y check_width check_height hero_z None.

Fixpoint standing_loop (hero : Hero) (entities : list Entity) (check_x check_y check_width check_height : Q)
         (highest : option (Entity * Q)) : option (Entity * Q) :=
  match entities with
  | [] => highest
  | entity :: rest =>
    let highest' :=
      if negb (solid entity) || negb (visible entity) || is_grabbed hero entity then highest
      else if negb (xy_overlap check_x check_y check_width check_height entity) then highest
      else
        let et := entity_top entity in
        if Qle_bool (Qabs (vz (hero_world_pos hero) - et)) (1 # 16) then
          match highest with
          | None => Some (entity, et)
          | Some (_, h) => if Qltb h et then Some (entity, et) else highest
          end
        else highest in
    standing_loop hero rest check_x check_y check_width check_height highest'
  end.

(** The check rectangle: the hero's footprint at its world position. *)
Definition hero_check_rect (hero : Hero) : Q * Q * Q * Q :=
  let hero_pos := hero_world_pos hero in
  (vx hero_pos + MARGIN, vy hero_pos + MARGIN,
   size_in_tiles (hero_bbox hero) - MARGIN * 2,
   size_in_tiles (hero_bbox hero) - MARGIN * 2).

Definition get_entity_hero_is_standing_on (hero : Hero) (entities : list Entity) : option Entity :=
  let '(check_x, check_y, check_width, check_height) := hero_check_rect hero in
  option_map fst (standing_loop hero entities check_x check_y check_width check_height None).

(** The checks [can_place_entity_at_position] evaluates, in order; each is
    announced by one of its [print] statements. *)
Inductive PlaceCheck :=
| ChkBounds | ChkWalkable | ChkHeight | ChkEntity (i : nat).

Fixpoint place_loop (entity : Entity) (temp_bbox : BoundingBox) (i : nat) (others : list Entity)
  : bool * list PlaceCheck :=
  match others with
  | [] => (true, [])
  | other :: rest =>
    if Nat.eqb (ent_id other) (ent_id entity) || negb (solid other) || negb (visible other)
    then place_loop entity temp_bbox (S i) rest
    else if check_entity_collision_3d temp_bbox (bbox other) then (false, [ChkEntity i])
    else let '(b, tr) := place_loop entity temp_bbox (S i) rest in (b, ChkEntity i :: tr)
  end.

Definition can_place_trace (hero_z : Q) (entity : Entity) (x y z : Q)
           (other_entities : list Entity) (heightmap : Heightmap)
  : Result (bool * list PlaceCheck) :=
  let tile_x := py_int x in
  let tile_y := py_int y in
  if ((tile_x <? 0) || (tile_y <? 0) ||
      (tile_x >=? get_width heightmap) || (tile_y >=? get_height heightmap))%Z
  then Ok (false, [ChkBounds])
  else
    cell <- get_cell heightmap tile_x tile_y ;;
    match cell with
    | None => Ok (false, [ChkBounds; ChkWalkable])
    | Some c =>
      if negb (is_walkable c) then Ok (false, [ChkBounds; ChkWalkable])
      else
        let terrain_z := inject_Z (height c) in
        if Qltb 2 (terrain_z - hero_z) then Ok (false, [ChkBounds; ChkWalkable; ChkHeight])
        else
          let temp_bbox := mkBBox (mkV3 x y z) (height_in_tiles (bbox entity))
                                  (size_in_tiles (bbox entity)) in
          let '(b, tr) := place_loop entity temp_bbox 0 other_entities in
          Ok (b, ChkBounds :: ChkWalkable :: ChkHeight :: tr)
    end.

Definition can_place_entity_at_position (hero_z : Q) (entity : Entity) (x y z : Q)
           (other_entities : list Entity) (heightmap : Heightmap) : Result bool :=
  r <- can_place_trace hero_z entity x y z other_entities heightmap ;; Ok (fst r).

End Collision.

(** ** boundingbox.py (pixel-margin helpers used by game.py) *)
Module BBox.

(** [MARGIN: int = 2] *)
Definition MARGIN : Q := 2.

Definition get_bounding_box (b : BoundingBox) (tile_h : Z) : Q * Q * Q * Q :=
  let x := vx (world_pos b) + MARGIN in
  let y := vy (world_pos b) + MARGIN in
  let width := inject_Z tile_h * size_in_tiles b - MARGIN * 2 in
  let height := inject_Z tile_h * size_in_tiles b - MARGIN * 2 in
  (x, y, width, height).

(** Corners in the order (left, bottom, right, top). *)
Definition get_corners_world (b : BoundingBox) (tile_h : Z) : list (Q * Q) :=
  let '(x, y, width, height) := get_bounding_box b tile_h in
  [(x, y + height); (x + width, y + height); (x + width, y); (x, y)].

End BBox.

(** ** game.py: [apply_gravity] *)
Module Gravity.
Import Heightmap Collision.

Record Game := mkGame {
  hero : Hero;
  entities : list Entity;          (* self.room.entities *)
  heightmap : Heightmap;           (* self.room.heightmap *)
  tileheight : Z                   (* self.room.data.tileheight *)
}.

Definition clamp (v n : Z) : Z := Z.max 0 (Z.min v (n - 1)).

(** The hero after [Drawable.set_world_pos] has written
    [_world_pos.x], [.y] and [.z] (drawable.py 87-89).  [bbox.world_pos]
    is the same object as [_world_pos] (both set in [Hero.__init__]), so
    the bounding box reads the new position too.  On a [Hero] the next line
    raises [TypeError]: [Hero._update_screen_pos] (hero.py 261) takes four
    arguments and drawable.py 90 passes five; callers pair this update with
    that exception. *)
Definition hero_set_world_pos (h : Hero) (p : Vector3) : Hero :=
  mkHero p (mkBBox p (height_in_tiles (hero_bbox h)) (size_in_tiles (hero_bbox h)))
         (grabbed_entity h) (is_grabbing h) (touch_ground h) (is_jumping h).

(** [Drawable.set_world_pos] on an [Entity] (eight arguments, inherited
    [_update_screen_pos]): the position is written and [bbox.world_pos]
    points at it. *)
Definition entity_set_world_pos (e : Entity) (p : Vector3) : Entity :=
  mkEntity (ent_id e) (mkBBox p (height_in_tiles (bbox e)) (size_in_tiles (bbox e)))
           (solid e) (visible e).

Definition cell_height (cells : list (list HeightmapCell)) (x y : Z) : Result Q :=
  row <- py_index cells y ;; c <- py_index row x ;; Ok (inject_Z (height c)).

(** Lines 596-624: the four corner tiles (left, bottom, right, top),
    clamped to the grid. *)
Definition corner_tiles (g : Game) : Result (list (Z * Z)) :=
  let tile_h := tileheight g in
  match BBox.get_corners_world (hero_bbox (hero g)) tile_h with
  | [(lx, ly); (bx, by_); (rx, ry); (tx, ty)] =>
    left_x <- py_floordiv_int lx tile_h ;; left_y <- py_floordiv_int ly tile_h ;;
    bottom_x <- py_floordiv_int bx tile_h ;; bottom_y <- py_floordiv_int by_ tile_h ;;
    right_x <- py_floordiv_int rx tile_h ;; right_y <- py_floordiv_int ry tile_h ;;
    top_x <- py_floordiv_int tx tile_h ;; top_y <- py_floordiv_int ty tile_h ;;
    let map_width := get_width (heightmap g) in
    let map_height := get_height (heightmap g) in
    Ok [(clamp left_x map_width, clamp left_y map_height);
        (clamp bottom_x map_width, clamp bottom_y map_height);
        (clamp right_x map_width, clamp right_y map_height);
        (clamp top_x map_width, clamp top_y map_height)]
  | _ => Raise IndexError
  end.

(** Lines 628-636: the highest terrain cell under the corners, the cells
    read in the order top, bottom, right, left. *)
Definition max_ground_height (g : Game) (corners : list (Z * Z)) : Result Q :=
  let tile_h := tileheight g in
  match corners with
  | [(left_x, left_y); (bottom_x, bottom_y); (right_x, right_y); (top_x, top_y)] =>
    let cs := cells (heightmap g) in
    t <- cell_height cs top_x top_y ;;
    b <- cell_height cs bottom_x bottom_y ;;
    r <- cell_height cs right_x right_y ;;
    l <- cell_height cs left_x left_y ;;
    let th := inject_Z tile_h in
    Ok (py_max (py_max (py_max (t * th) (b * th)) (r * th)) (l * th))
  | _ => Raise IndexError
  end.

(** [apply_gravity]: the corner tiles are computed before the
    [is_jumping] test.  For a hero that is not jumping, once the terrain
    height is read, line 644 calls
    [get_entity_hero_is_standing_on(self.hero, entities_to_check, tile_h)]:
    three arguments for the two parameters of collision.py 164, which
    raises [TypeError] (the list comprehension before it cannot raise).
    Lines 651-726 are never reached. *)
Definition apply_gravity (g : Game) : Result Game :=
  corners <- corner_tiles g ;;
  if is_jumping (hero g) then Ok g
  else _ <- max_ground_height g corners ;; Raise TypeError.

End Gravity.

(** ** warp.py *)
Module Warp.

Record Warp := mkWarp {
  room1 : Z; room2 : Z;
  x : Z; y : Z; x2 : Z; y2 : Z;
  width : Z; height : Z
}.

Definition check_collision (w : Warp) (hero_x hero_y hero_width hero_height : Q)
           (current_room : Z) : bool :=
  let '(warp_tile_x, warp_tile_y) :=
    if (room1 w =? current_room)%Z then (x w, y w) else (x2 w, y2 w) in
  let hero_center_x_pixels := hero_x + inject_Z (Qfloor (hero_width / 2)) in
  let hero_center_y_pixels := hero_y + inject_Z (Qfloor (hero_height / 2)) in
  let hero_tile_x := py_int hero_center_x_pixels in
  let hero_tile_y := py_int hero_center_y_pixels in
  let x_in_range := ((warp_tile_x - 12 <=? hero_tile_x) &&
                     (hero_tile_x <? warp_tile_x - 12 + width w))%Z in
  let y_in_range := ((warp_tile_y - 12 <=? hero_tile_y) &&
                     (hero_tile_y <? warp_tile_y - 12 + height w))%Z in
  x_in_range && y_in_range.

Definition get_destination (w : Warp) (current_room : Z) : Z * Z :=
  let '(dest_tile_x, dest_tile_y) :=
    if (current_room =? room1 w)%Z then (x2 w, y2 w) else (x w, y w) in
  ((dest_tile_x - 12)%Z, (dest_tile_y - 12)%Z).

Definition get_target_room (w : Warp) (current_room : Z) : Z :=
  if (current_room =? room1 w)%Z then room2 w else room1 w.

End Warp.

(** ** game.py: [check_warp_collision] *)
Module WarpCheck.
Import Warp.

Section Check.

Variable tile_h : Z.
Variable warps : list Warp.          (* self.room.warps *)
Variable room_room_number : Z.       (* self.room.room_number *)
Variable room_number : Z.            (* self.room_number *)

(** The hero tile from the center of [hero.get_bounding_box(tile_h)]. *)
Definition current_tile (rect : Q * Q * Q * Q) : Result (Z * Z) :=
  let '(hero_x, hero_y, hero_width, hero_height) := rect in
  tx <- py_floordiv_int (hero_x + inject_Z (Qfloor (hero_width / 2))) tile_h ;;
  ty <- py_floordiv_int (hero_y + inject_Z (Qfloor (hero_height / 2))) tile_h ;;
  Ok (tx, ty).

(** The [for warp in self.room.warps] loop: [True] once a fade is started. *)
Fixpoint warp_loop (rect : Q * Q * Q * Q) (ws : list Warp) : bool :=
  match ws with
  | [] => false
  | w :: rest =>
    let '(hero_x, hero_y, hero_width, hero_height) := rect in
    if check_collision w hero_x hero_y hero_width hero_height room_room_number
       && negb (get_target_room w room_number =? room_number)%Z
    then true
    else warp_loop rect rest
  end.

(** One call; the state is [(prev_hero_tile_x, prev_hero_tile_y)]. *)
Definition check_warp_collision (prev : Z * Z) (rect : Q * Q * Q * Q) : Result (bool * (Z * Z)) :=
  cur <- current_tile rect ;;
  let '(current_tile_x, current_tile_y) := cur in
  let '(px, py) := prev in
  if ((current_tile_x =? px) && (current_tile_y =? py))%Z then Ok (false, prev)
  else Ok (warp_loop rect warps, cur).

(** Frames as seen by the recorded tile: a call of [check_warp_collision],
    or the fade callback [do_warp] writing the destination tile
    (lines 556-557). *)
Inductive Frame :=
| FCheck (rect : Q * Q * Q * Q)
| FWarpReset (dest : Z * Z).

(** Runs frames; returns the number of calls that fired and the final
    recorded tile. *)
Fixpoint run (prev : Z * Z) (fs : list Frame) : Result (nat * (Z * Z)) :=
  match fs with
  | [] => Ok (O, prev)
  | FCheck rect :: rest =>
      r <- check_warp_collision prev rect ;;
      let '(fired, prev') := r in
      r' <- run prev' rest ;;
      let '(n, last) := r' in
      Ok ((if fired then S n else n), last)
  | FWarpReset dest :: rest => run dest rest
  end.

End Check.
End WarpCheck.

(** ** drawable.py: position objects and the bounding-box alias *)
Module Drawable.

(** Python objects of type [Vector3] live in a store indexed by address. *)
Definition Store := nat -> Vector3.

Definition store_write (s : Store) (l : nat) (v : Vector3) : Store :=
  fun l' => if Nat.eqb l' l then v else s l'.

(** An actor's references: [_world_pos], [prev_world_pos], and the
    [bbox.world_pos] of its bounding box ([None] while [self.bbox] is
    still [None]). *)
Record Actor := mkActor {
  pos_loc : nat;
  prev_loc : nat;
  bbox_loc : option nat
}.

Record World := mkWorld {
  store : Store;
  next_loc : nat;
  actors : list Actor
}.

Inductive Op :=
| Construct (x y z : Q)          (* Hero.__init__ / Entity.__init__ *)
| SetWorldPos (i : nat) (x y z : Q)
| SetWorldX (i : nat) (x : Q)
| SetWorldY (i : nat) (y : Q)
| SetWorldZ (i : nat) (z : Q)
| AddWorldX (i : nat) (dx : Q)
| AddWorldY (i : nat) (dy : Q)
| AddWorldZ (i : nat) (dz : Q)
| UpdatePrevPosition (i : nat)
  (** [bbox.update_position(entity._world_pos)], the one call site (game.py 963) *)
| UpdateBBoxOwnPosition (i : nat).

Definition with_store (w : World) (s : Store) : World := mkWorld s (next_loc w) (actors w).

Definition modify_pos (w : World) (i : nat) (f : Vector3 -> Vector3) : World :=
  match nth_error (actors w) i with
  | None => w
  | Some a => with_store w (store_write (store w) (pos_loc a) (f (store w (pos_loc a))))
  end.

Fixpoint replace_nth {A} (l : list A) (i : nat) (v : A) : list A :=
  match l, i with
  | [], _ => []
  | _ :: t, O => v :: t
  | h :: t, S k => h :: replace_nth t k v
  end.

Definition rebind_bbox (w : World) (i : nat) : World :=
  match nth_error (actors w) i with
  | None => w
  | Some a =>
    match bbox_loc a with
    | None => w
    | Some _ => mkWorld (store w) (next_loc w)
                        (replace_nth (actors w) i (mkActor (pos_loc a) (prev_loc a) (Some (pos_loc a))))
    end
  end.

Definition step (w : World) (op : Op) : World :=
  match op with
  | Construct x y z =>
    (* self._world_pos = Vector3(x, y, z); self.prev_world_pos = copy();
       ...; self.bbox = BoundingBox(self._world_pos, ...) *)
    let l := next_loc w in
    let s1 := store_write (store w) l (mkV3 x y z) in
    let s2 := store_write s1 (S l) (mkV3 x y z) in
    mkWorld s2 (S (S l)) (actors w ++ [mkActor l (S l) (Some l)])
  | SetWorldPos i x y z =>
    rebind_bbox (modify_pos w i (fun _ => mkV3 x y z)) i
  | SetWorldX i x => modify_pos w i (fun v => mkV3 x (vy v) (vz v))
  | SetWorldY i y => modify_pos w i (fun v => mkV3 (vx v) y (vz v))
  | SetWorldZ i z => modify_pos w i (fun v => mkV3 (vx v) (vy v) z)
  | AddWorldX i dx => modify_pos w i (fun v => mkV3 (vx v + dx) (vy v) (vz v))
  | AddWorldY i dy => modify_pos w i (fun v => mkV3 (vx v) (vy v + dy) (vz v))
  | AddWorldZ i dz => modify_pos w i (fun v => mkV3 (vx v) (vy v) (vz v + dz))
  | UpdatePrevPosition i =>
    match nth_error (actors w) i with
    | None => w
    | Some a => let v := store w (pos_loc a) in
                with_store w (store_write (store w) (prev_loc a) (mkV3 (vx v) (vy v) (vz v)))
    end
  | UpdateBBoxOwnPosition i => rebind_bbox w i
  end.

Definition exec (w : World) (ops : list Op) : World := fold_left step ops w.

Definition empty_world : World := mkWorld (fun _ => mkV3 0 0 0) O [].

(** What a collision query reads: [actor.bbox.world_pos]. *)
Definition bbox_world_pos (w : World) (a : Actor) : option Vector3 :=
  option_map (store w) (bbox_loc a).

(** What [get_world_pos()] returns. *)
Definition get_world_pos (w : World) (a : Actor) : Vector3 := store w (pos_loc a).

Definition aliased (a : Actor) : Prop := bbox_loc a = Some (pos_loc a).

End Drawable.

(** ** Exceptions of the further call paths

    The code below can also fail with [ValueError] ([int(c, 16)] on a
    non-hex character) and with [TypeError] (a call with fewer arguments
    than the callee's parameters).  A call that raises also keeps the
    mutations made before it, so the functions that mutate return the state
    reached together with the exception that escapes, if any. *)
Module Exn.
Inductive t := IndexError | ValueError | TypeError.
End Exn.

Inductive PyResult (A : Type) : Type :=
| POk : A -> PyResult A
| PRaise : Exn.t -> PyResult A.
Arguments POk {A} _.
Arguments PRaise {A} _.

Definition pbind {A B} (m : PyResult A) (k : A -> PyResult B) : PyResult B :=
  match m with POk a => k a | PRaise e => PRaise e end.

(** [[f(a) for a in l]], evaluated left to right; the first exception
    escapes. *)
Fixpoint map_py {A B} (f : A -> PyResult B) (l : list A) : PyResult (list B) :=
  match l with
  | [] => POk []
  | a :: rest => pbind (f a) (fun b => pbind (map_py f rest) (fun bs => POk (b :: bs)))
  end.

(** [range(n)] *)
Definition py_range (n : Z) : list Z := map Z.of_nat (seq 0 (Z.to_nat n)).

(** ** collision.py: the lookups around the hero *)
Module CollisionMore.
Import Collision.
Import Strings.String.
Local Open Scope string_scope.

(** [get_touching_entities] (lines 428-445). *)
Fixpoint get_touching_entities (hero : Hero) (entities : list Entity) : list Entity :=
  match entities with
  | [] => []
  | entity :: rest =>
    if is_grabbed hero entity then get_touching_entities hero rest
    else if negb (visible entity) then get_touching_entities hero rest
    else if check_entity_collision_3d (hero_bbox hero) (bbox entity)
    then entity :: get_touching_entities hero rest
    else get_touching_entities hero rest
  end.

(** [get_position_in_front_of_hero] (lines 209-234); [orientation] is
    [hero.orientation], which [Drawable.__init__] sets to ['SW']. *)
Definition get_position_in_front_of_hero (orientation : string) (hero : Hero) : Q * Q :=
  let hero_pos := hero_world_pos hero in
  let front_x := vx hero_pos in
  let front_y := vy hero_pos in
  if String.eqb orientation "UP" then (front_x, front_y - 1)
  else if String.eqb orientation "DOWN" then (front_x, front_y + 1)
  else if String.eqb orientation "LEFT" then (front_x - 1, front_y)
  else if String.eqb orientation "RIGHT" then (front_x + 1, front_y)
  else (front_x, front_y).

(** [check_size = 0.8], taken as 4/5: the float is within 2^-53 of it and
    the positions compared against are multiples of 1/16 far from that
    distance, so no comparison changes. *)
Definition check_size : Q := 4 # 5.

(** The loop of [get_entity_in_front_of_hero] (lines 252-282); its XY
    test is the one of [xy_overlap] with a [check_size] square. *)
Fixpoint front_loop (hero : Hero) (front_x front_y : Q) (entities : list Entity) : option Entity :=
  match entities with
  | [] => None
  | entity :: rest =>
    if negb (visible entity) || is_grabbed hero entity then front_loop hero front_x front_y rest
    else if negb (xy_overlap front_x front_y check_size check_size entity)
    then front_loop hero front_x front_y rest
    else
      let hero_pos := hero_world_pos hero in
      let entity_z := vz (world_pos (bbox entity)) in
      let entity_height := height_in_tiles (bbox entity) in
      let hero_height := height_in_tiles (hero_bbox hero) in
      if Qltb (vz hero_pos) (entity_z + entity_height) && Qltb entity_z (vz hero_pos + hero_height)
      then Some entity
      else front_loop hero front_x front_y rest
  end.

Definition get_entity_in_front_of_hero (orientation : string) (hero : Hero)
           (entities : list Entity) : option Entity :=
  let '(front_x, front_y) := get_position_in_front_of_hero orientation hero in
  front_loop hero front_x front_y entities.

(** A box moved by [d] tiles on X and Y. *)
Definition shift_xy (b : BoundingBox) (d : Q) : BoundingBox :=
  mkBBox (mkV3 (vx (world_pos b) + d) (vy (world_pos b) + d) (vz (world_pos b)))
         (height_in_tiles b) (size_in_tiles b).

(** The per-entity test of [get_entity_in_front_of_hero]. *)
Definition in_front (hero : Hero) (front_x front_y : Q) (entity : Entity) : bool :=
  let hero_pos := hero_world_pos hero in
  let entity_z := vz (world_pos (bbox entity)) in
  visible entity && negb (is_grabbed hero entity) &&
  xy_overlap front_x front_y check_size check_size entity &&
  (Qltb (vz hero_pos) (entity_z + height_in_tiles (bbox entity)) &&
   Qltb entity_z (vz hero_pos + height_in_tiles (hero_bbox hero))).

Definition set_solid (b : bool) (e : Entity) : Entity :=
  mkEntity (ent_id e) (bbox e) b (visible e).

(** The per-entity test of [get_entity_top_at_position]. *)
Definition top_qualifies (check_x check_y check_width check_height hero_z : Q) (e : Entity) : bool :=
  solid e && visible e && xy_overlap check_x check_y check_width check_height e &&
  Qle_bool (entity_top e) (hero_z + (1 # 16)).

End CollisionMore.

(** ** collision.py: [update_carried_positions] (lines 347-425)

    An entity's [bbox.world_pos] is its [_world_pos] (the aliasing of
    [Drawable]), so one position stands for both; [m_prev] is its
    [prev_world_pos]. *)
Module Carry.
Import Collision Gravity.

Record Mover := mkMover { m_ent : Entity; m_prev : Vector3 }.

Definition m_pos (m : Mover) : Vector3 := world_pos (bbox (m_ent m)).

(** [Drawable.get_position_delta] *)
Definition get_position_delta (pos prev : Vector3) : Vector3 :=
  mkV3 (vx pos - vx prev) (vy pos - vy prev) (vz pos - vz prev).

(** [dx != 0 or dy != 0 or dz != 0] *)
Definition nonzero (d : Vector3) : bool :=
  negb (Qeq_bool (vx d) 0) || negb (Qeq_bool (vy d) 0) || negb (Qeq_bool (vz d) 0).

Definition vadd (p d : Vector3) : Vector3 := mkV3 (vx p + vx d) (vy p + vy d) (vz p + vz d).

(** [update_prev_position]: the three fields are copied. *)
Definition copy_pos (p : Vector3) : Vector3 := mkV3 (vx p) (vy p) (vz p).

Record CarryState := mkCarry {
  c_hero : Hero;
  c_hero_prev : Vector3;
  c_movers : list Mover      (* entities *)
}.

Definition same_object (e : Entity) (m : Mover) : bool := Nat.eqb (ent_id (m_ent m)) (ent_id e).

(** Lines 349-372.  [hero.set_world_pos] is [Drawable.set_world_pos]
    with its eight arguments: it writes the new position, then raises
    [TypeError] at [self._update_screen_pos(...)], which passes five
    arguments to the four of [Hero._update_screen_pos].  The exception
    leaves [update_carried_positions] before [update_grabbed_entity_position],
    the loop and the [update_prev_position] calls. *)
Definition hero_branch (st : CarryState) : CarryState * option Exn.t :=
  let hero := c_hero st in
  match get_entity_hero_is_standing_on hero (map m_ent (c_movers st)) with
  | None => (st, None)
  | Some standing_on =>
    match find (same_object standing_on) (c_movers st) with
    | None => (st, None)
    | Some so =>
      let d := get_position_delta (m_pos so) (m_prev so) in
      if nonzero d then
        let hero' := hero_set_world_pos hero (vadd (hero_world_pos hero) d) in
        (mkCarry hero' (c_hero_prev st) (c_movers st), Some Exn.TypeError)
      else (st, None)
    end
  end.

(** One iteration of the loop over the entities (lines 375-420), on the
    list as mutated by the earlier iterations. *)
Definition entity_step (ms : list Mover) (i : nat) : list Mover :=
  match nth_error ms i with
  | None => ms
  | Some m =>
    let entity := m_ent m in
    let entity_pos := m_pos m in
    let check_x := vx entity_pos + MARGIN in
    let check_y := vy entity_pos + MARGIN in
    let check_width := size_in_tiles (bbox entity) - MARGIN * 2 in
    let check_height := size_in_tiles (bbox entity) - MARGIN * 2 in
    let others := filter (fun o => negb (same_object entity o)) ms in
    match get_entity_top_at_position (map m_ent others) check_x check_y check_width check_height
                                     (vz entity_pos) with
    | None => ms
    | Some standing_on =>
      match find (fun o => negb (same_object entity o) &&
                           Qltb (Qabs (vz (m_pos o) + height_in_tiles (bbox (m_ent o)) - standing_on))
                                (1 # 16)) ms with
      | None => ms
      | Some other =>
        let d := get_position_delta (m_pos other) (m_prev other) in
        if nonzero d
        then Drawable.replace_nth ms i (mkMover (entity_set_world_pos entity (vadd entity_pos d)) (m_prev m))
        else ms
      end
    end
  end.

Definition entity_loop (ms : list Mover) : list Mover :=
  fold_left entity_step (seq 0 (length ms)) ms.

Definition update_prev (m : Mover) : Mover := mkMover (m_ent m) (copy_pos (m_pos m)).

Definition update_carried_positions (st : CarryState) : CarryState * option Exn.t :=
  match hero_branch st with
  | (st1, Some e) => (st1, Some e)
  | (st1, None) =>
    let ms := entity_loop (c_movers st1) in
    (mkCarry (c_hero st1) (copy_pos (hero_world_pos (c_hero st1))) (map update_prev ms), None)
  end.

End Carry.

(** ** game.py: [can_move_to] (lines 728-740) and [handle_jump] (lines 878-911);
    hero.py: [update_facing_direction] (lines 244-259) *)
Module GameMore.
Import Heightmap Gravity.
Import Strings.String.
Local Open Scope string_scope.

(** [not cell] holds only for [None]: [HeightmapCell] defines neither
    [__bool__] nor [__len__]. *)
Fixpoint cells_ok (hm : Heightmap) (tile_h : Z) (height_at_foot : Q) (check_cells : list (Z * Z))
  : Result bool :=
  match check_cells with
  | [] => Ok true
  | (cell_x, cell_y) :: rest =>
    cell <- get_cell hm cell_x cell_y ;;
    match cell with
    | None => Ok false
    | Some c =>
      if negb (is_walkable c) then Ok false
      else if Qltb height_at_foot (inject_Z (height c * tile_h)) then Ok false
      else cells_ok hm tile_h height_at_foot rest
    end
  end.

Definition can_move_to (g : Game) (next_x next_y : Q) (check_cells : list (Z * Z)) : Result bool :=
  cells_ok (heightmap g) (tileheight g) (vz (hero_world_pos (hero g))) check_cells.

(** [HERO_MAX_JUMP: int = 24] *)
Definition HERO_MAX_JUMP : Z := 24.

Record JumpState := mkJump {
  j_touch_ground : bool;
  j_is_jumping : bool;
  j_current_jump : Z;
  j_z : Q                     (* hero._world_pos.z *)
}.

(** [space] is [keys[pygame.K_SPACE]].  After [current_jump += 2] the
    call [self.hero.set_world_pos(...)] passes seven arguments to the eight
    parameters of [Drawable.set_world_pos] and raises [TypeError] before
    any field is written. *)
Definition handle_jump (space : bool) (s : JumpState) : JumpState * option Exn.t :=
  let s1 := if space && j_touch_ground s && negb (j_is_jumping s)
            then mkJump (j_touch_ground s) true (j_current_jump s) (j_z s) else s in
  if j_is_jumping s1 then
    if (j_current_jump s1 <? HERO_MAX_JUMP)%Z then
      (mkJump (j_touch_ground s1) true (j_current_jump s1 + 2) (j_z s1), Some Exn.TypeError)
    else (mkJump (j_touch_ground s1) false 0 (j_z s1), None)
  else (s1, None).

(** [Hero.update_facing_direction]: the new [facing_direction]. *)
Definition update_facing_direction (facing_direction : string) (dx dy : Q) : string :=
  if Qeq_bool dx 0 && Qeq_bool dy 0 then facing_direction
  else if Qltb (Qabs dy) (Qabs dx) then (if Qltb dx 0 then "LEFT" else "RIGHT")
  else (if Qltb dy 0 then "UP" else "DOWN").

End GameMore.

(** ** heightmap.py: the cell grid of [load_from_properties] (lines 48-66)

    The input is [hex_values], the list of stripped, non-empty
    comma-separated tokens built by lines 33-44, with [width] and [height]
    already converted by [int].  Strings are taken as ASCII. *)
Module HeightmapLoad.
Import Heightmap.
Import Strings.String Strings.Ascii.

(** [s.replace(a ++ b, '')] for a two-character pattern: occurrences are
    removed left to right, without rescanning what was produced. *)
Fixpoint remove_pair (a b : ascii) (s : string) : string :=
  match s with
  | EmptyString => EmptyString
  | String c rest =>
    if Ascii.eqb c a then
      match rest with
      | String d rest' => if Ascii.eqb d b then remove_pair a b rest' else String c (remove_pair a b rest)
      | EmptyString => String c EmptyString
      end
    else String c (remove_pair a b rest)
  end.

(** [int(c, 16)] on a one-character string. *)
Definition int16 (c : ascii) : PyResult Z :=
  let n := Z.of_nat (nat_of_ascii c) in
  if ((48 <=? n) && (n <=? 57))%Z then POk (n - 48)%Z
  else if ((97 <=? n) && (n <=? 102))%Z then POk (n - 87)%Z
  else if ((65 <=? n) && (n <=? 70))%Z then POk (n - 55)%Z
  else PRaise Exn.ValueError.

(** [s[i]] *)
Definition str_index (s : string) (i : nat) : PyResult ascii :=
  match String.get i s with Some c => POk c | None => PRaise Exn.IndexError end.

(** Lines 52-61 for one value. *)
Definition parse_cell (v : string) : PyResult HeightmapCell :=
  let hex_str := remove_pair "0" "X" (remove_pair "0" "x" v) in
  pbind (str_index hex_str 0) (fun c0 =>
  pbind (int16 c0) (fun walkable =>
  pbind (str_index hex_str 1) (fun c1 =>
  pbind (int16 c1) (fun height_val =>
  POk (mkCell height_val walkable))))).

(** The cell at [(x, y)]: parsed from [hex_values[y * width + x]], or the
    default [HeightmapCell(height=0, walkable=4)] when data is missing. *)
Definition cell_at (hex_values : list string) (width y x : Z) : PyResult HeightmapCell :=
  let index := (y * width + x)%Z in
  if (index <? Z.of_nat (List.length hex_values))%Z then
    match nth_error hex_values (Z.to_nat index) with
    | Some v => parse_cell v
    | None => PRaise Exn.IndexError
    end
  else POk (mkCell 0 4).

Definition load_cells (hex_values : list string) (width height : Z) : PyResult (list (list HeightmapCell)) :=
  map_py (fun y => map_py (fun x => cell_at hex_values width y x) (py_range width)) (py_range height).

Definition load_from_hex_values (left top width height : Z) (hex_values : list string) : PyResult Heightmap :=
  pbind (load_cells hex_values width height) (fun cs => POk (mkHeightmap left top cs)).

(** Every row is as long as row 0, the width [get_cell] checks against. *)
Definition rectangular (hm : Heightmap) : Prop :=
  Forall (fun row => Z.of_nat (List.length row) = get_width hm) (cells hm).

End HeightmapLoad.

(** ** game.py: the destination part of [do_warp] (lines 512-548) *)
Module DoWarp.
Import Warp.

(** The state [do_warp] reaches: skipped by one of the two raft patches,
    or [self.room_number] and the destination tile when the hero's
    [set_world_pos] is called. *)
Inductive WarpOutcome :=
| Skipped
| Reached (room_number : Z) (dest : Z * Z).

(** The [set_world_pos] call of lines 542-548 passes seven arguments to
    eight parameters and raises [TypeError]. *)
Definition do_warp (w : Warp) (current_room_number target_room : Z) : WarpOutcome * option Exn.t :=
  if ((current_room_number =? 168) && (target_room =? 167))%Z then (Skipped, None)
  else if ((current_room_number =? 169) && (target_room =? 168))%Z then (Skipped, None)
  else
    let room_number := target_room in
    let '(dest_tile_x, dest_tile_y) := get_destination w room_number in
    let '(dest_tile_x, dest_tile_y) :=
      if ((room_number =? 168) || (room_number =? 169))%Z
      then ((dest_tile_x - 1)%Z, (dest_tile_y + 1)%Z) else (dest_tile_x, dest_tile_y) in
    (Reached room_number (dest_tile_x, dest_tile_y), Some Exn.TypeError).

End DoWarp.

(** ** boundingbox.py: [get_center] (lines 89-99) *)
Module BBoxMore.
Import BBox.

Definition get_center (b : BoundingBox) (tile_h : Z) : Q * Q :=
  let '(x, y, width, height) := get_bounding_box b tile_h in
  (x + width / 2, y + height / 2).

End BBoxMore.

(** ** drawable.py: separate position objects *)
Module DrawableMore.
Import Drawable.

(** The addresses of every actor's [_world_pos] and [prev_world_pos]. *)
Definition locs (w : World) : list nat :=
  flat_map (fun a => [pos_loc a; prev_loc a]) (actors w).

(** [get_position_delta]: [_world_pos - prev_world_pos]. *)
Definition get_position_delta (w : World) (a : Actor) : Vector3 :=
  let p := store w (pos_loc a) in
  let q := store w (prev_loc a) in
  mkV3 (vx p - vx q) (vy p - vy q) (vz p - vz q).

(** The actor an operation acts on. *)
Definition op_target (op : Op) : option nat :=
  match op with
  | Construct _ _ _ => None
  | SetWorldPos i _ _ _ | SetWorldX i _ | SetWorldY i _ | SetWorldZ i _
  | AddWorldX i _ | AddWorldY i _ | AddWorldZ i _
  | UpdatePrevPosition i | UpdateBBoxOwnPosition i => Some i
  end.

End DrawableMore.

(** * Properties *)

Lemma Qltb_spec (a b : Q) : Qltb a b = true <-> a < b.
Proof.
  unfold Qltb. rewrite negb_true_iff. split; intro H.
  - apply Qnot_le_lt. intro H'. apply Qle_bool_iff in H'. congruence.
  - destruct (Qle_bool b a) eqn:E; [|reflexivity].
    apply Qle_bool_iff in E. exfalso. apply (Qlt_not_le a b); assumption.
Qed.

Lemma Qltb_false (a b : Q) : Qltb a b = false <-> b <= a.
Proof.
  unfold Qltb. rewrite negb_false_iff. apply Qle_bool_iff.
Qed.

Module CollisionFacts.
Import Collision.

Definition box (px py pz size height : Q) : BoundingBox := mkBBox (mkV3 px py pz) height size.

(** C1 (counterexample): spec Scenario 2, box A at (0,0,0) and box B at
    (0.5,0,0), both of size 1 and height 1, do not collide: the claim says
    [check_entity_collision_3d] returns true there. *)
Lemma C1_scenario2_no_collision :
  check_entity_collision_3d (box 0 0 0 1 1) (box (1 # 2) 0 0 1 1) = false.
Proof. vm_compute. reflexivity. Qed.

(** C1 (amended): [check_entity_collision_3d m t] is true exactly when the
    moving box's shrunk footprint (origin [pos + MARGIN], side
    [size - 2 MARGIN]) and the target's shrunk footprint shifted by -12
    tiles on X and Y (origin [pos + MARGIN - 12]) overlap under strict
    inequalities on both axes, and the ranges [z, z + height) overlap under
    the same strict rule. *)
Theorem C1_collision_iff (m t : BoundingBox) :
  check_entity_collision_3d m t = true <->
  (let me_x := vx (world_pos m) + MARGIN in
   let me_y := vy (world_pos m) + MARGIN in
   let me_s := size_in_tiles m - MARGIN * 2 in
   let te_x := vx (world_pos t) + MARGIN - 12 in
   let te_y := vy (world_pos t) + MARGIN - 12 in
   let te_s := size_in_tiles t - MARGIN * 2 in
   me_x < te_x + te_s /\ te_x < me_x + me_s /\
   me_y < te_y + te_s /\ te_y < me_y + me_s /\
   vz (world_pos m) < vz (world_pos t) + height_in_tiles t /\
   vz (world_pos t) < vz (world_pos m) + height_in_tiles m).
Proof.
  unfold check_entity_collision_3d; cbv zeta.
  destruct (Qltb (vx (world_pos m) + MARGIN)
                 (vx (world_pos t) + MARGIN - 12 + (size_in_tiles t - MARGIN * 2))) eqn:E1;
  destruct (Qltb (vx (world_pos t) + MARGIN - 12)
                 (vx (world_pos m) + MARGIN + (size_in_tiles m - MARGIN * 2))) eqn:E2;
  destruct (Qltb (vy (world_pos m) + MARGIN)
                 (vy (world_pos t) + MARGIN - 12 + (size_in_tiles t - MARGIN * 2))) eqn:E3;
  destruct (Qltb (vy (world_pos t) + MARGIN - 12)
                 (vy (world_pos m) + MARGIN + (size_in_tiles m - MARGIN * 2))) eqn:E4;
  simpl;
  repeat match goal with
         | H : Qltb _ _ = true |- _ => apply Qltb_spec in H
         | H : Qltb _ _ = false |- _ => apply Qltb_false in H
         end;
  rewrite ?andb_true_iff, ?Qltb_spec;
  split; intro H; cbv zeta in H |- *;
  repeat match goal with H : _ /\ _ |- _ => destruct H end;
  try discriminate;
  try match goal with H1 : ?a < ?b, H2 : ?b <= ?a |- _ =>
        exfalso; exact (Qlt_not_le _ _ H1 H2) end;
  repeat split; assumption.
Qed.

Lemma first_colliding_some (tb : BoundingBox) (es : list Entity) (e : Entity) :
  first_colliding tb es = Some e -> In e es /\ check_entity_collision_3d tb (bbox e) = true.
Proof.
  induction es as [|e' rest IH]; simpl; [discriminate|].
  destruct (check_entity_collision_3d tb (bbox e')) eqn:E.
  - intro H; inversion H; subst; auto.
  - intro H; destruct (IH H); auto.
Qed.

(** C2: [resolve_entity_collision] tries the diagonal move, then the
    X-only move [(new_x, old_y)], then the Y-only move [(old_x, new_y)],
    returns the first collision-free one (the old coordinate returned as
    the very same value) and otherwise the old position; the touched entity
    is [None] exactly when one of the three tests succeeds, and otherwise
    the obstacle found by the Y-only test, a listed entity that collides
    there. *)
Theorem C2_resolve_order (hero : Hero) (es : list Entity) (new_x new_y : Q) :
  let old_x := vx (hero_world_pos hero) in
  let old_y := vy (hero_world_pos hero) in
  let c := fun x y => check_collids_entity hero x y es in
  let r := resolve_entity_collision hero es new_x new_y in
  (c new_x new_y = None -> r = (new_x, new_y, None)) /\
  (c new_x new_y <> None -> c new_x old_y = None -> r = (new_x, old_y, None)) /\
  (c new_x new_y <> None -> c new_x old_y <> None -> c old_x new_y = None ->
     r = (old_x, new_y, None)) /\
  (c new_x new_y <> None -> c new_x old_y <> None -> c old_x new_y <> None ->
     r = (old_x, old_y, c old_x new_y)) /\
  (snd r = None <-> (c new_x new_y = None \/ c new_x old_y = None \/ c old_x new_y = None)) /\
  (forall e, snd r = Some e ->
     In e es /\
     check_entity_collision_3d
       (mkBBox (mkV3 old_x new_y (vz (hero_world_pos hero)))
               (height_in_tiles (hero_bbox hero)) (size_in_tiles (hero_bbox hero)))
       (bbox e) = true).
Proof.
  cbv zeta. unfold resolve_entity_collision.
  destruct (check_collids_entity hero new_x new_y es) as [e1|] eqn:E1;
  destruct (check_collids_entity hero new_x (vy (hero_world_pos hero)) es) as [e2|] eqn:E2;
  destruct (check_collids_entity hero (vx (hero_world_pos hero)) new_y es) as [e3|] eqn:E3;
  simpl; repeat split; intros; try congruence; try tauto;
  repeat match goal with H : _ \/ _ |- _ => destruct H end; try congruence;
  match goal with H : Some _ = Some ?e |- _ =>
    inversion H; subst; unfold check_collids_entity in E3;
    pose proof (first_colliding_some _ _ _ E3) as [Hi Hc]; assumption end.
Qed.

(** C5 (counterexample): the hero at (0, 0, 0) steps [HERO_SPEED = 2]
    along X.  With no entity the move to (2, 0) is accepted.  With one
    entity in the way (stored at (14, 12, 0), its footprint shifted by -12)
    the hero stays at (0, 0) whether that entity is non-solid, invisible,
    or the hero's grabbed entity; the claim says such an entity never
    blocks the move. *)
Lemma C5_ignored_entity_blocks :
  let h := mkHero (mkV3 0 0 0) (mkBBox (mkV3 0 0 0) 2 1) None false true false in
  let hg := mkHero (mkV3 0 0 0) (mkBBox (mkV3 0 0 0) 2 1) (Some 7%nat) true true false in
  let at_2 := mkBBox (mkV3 14 12 0) 1 1 in
  resolve_entity_collision h [] 2 0 = (2, 0, None) /\
  resolve_entity_collision h [mkEntity 7 at_2 false true] 2 0 = (0, 0, None) /\
  resolve_entity_collision h [mkEntity 7 at_2 true false] 2 0 = (0, 0, None) /\
  resolve_entity_collision hg [mkEntity 7 at_2 true true] 2 0 = (0, 0, None).
Proof. vm_compute. repeat split; reflexivity. Qed.

Lemma first_colliding_map (tb : BoundingBox) (f : Entity -> Entity) (es : list Entity) :
  (forall e, bbox (f e) = bbox e) ->
  first_colliding tb (map f es) = option_map f (first_colliding tb es).
Proof.
  intro Hf. induction es as [|e rest IH]; [reflexivity|]. simpl. rewrite Hf.
  destruct (check_entity_collision_3d tb (bbox e)); [reflexivity|exact IH].
Qed.

Lemma first_colliding_none (tb : BoundingBox) (es : list Entity) :
  first_colliding tb es = None <-> forall e, In e es -> check_entity_collision_3d tb (bbox e) = false.
Proof.
  induction es as [|e rest IH]; simpl.
  - split; [intros _ _ []|reflexivity].
  - destruct (check_entity_collision_3d tb (bbox e)) eqn:E.
    + split; [discriminate|]. intro H. rewrite (H e (or_introl eq_refl)) in E. discriminate.
    + rewrite IH. split.
      * intros H e' [<-|Hin]; [exact E|exact (H e' Hin)].
      * intros H e' Hin. exact (H e' (or_intror Hin)).
Qed.

(** C5 (amended): each of the resolver's tests runs against the whole
    entity list it is given: a test at [(x, y)] finds no obstacle exactly
    when no listed entity's bounding box collides with the hero's box
    there.  Nothing else about an entity is read: replacing the entities
    by ones with the same bounding boxes (other [solid] or [visible]
    flags) and the hero by one with the same position and box (another
    grabbed entity) moves the hero to the same position and reports the
    corresponding entity. *)
Theorem C5_resolver_unfiltered (h h' : Hero) (f : Entity -> Entity) (es : list Entity) (new_x new_y : Q)
  (Hp : hero_world_pos h' = hero_world_pos h) (Hb : hero_bbox h' = hero_bbox h)
  (Hf : forall e, bbox (f e) = bbox e) :
  (forall x y, check_collids_entity h x y es = None <->
     forall e, In e es ->
       check_entity_collision_3d
         (mkBBox (mkV3 x y (vz (hero_world_pos h))) (height_in_tiles (hero_bbox h))
                 (size_in_tiles (hero_bbox h))) (bbox e) = false) /\
  resolve_entity_collision h' (map f es) new_x new_y =
    (fst (resolve_entity_collision h es new_x new_y),
     option_map f (snd (resolve_entity_collision h es new_x new_y))).
Proof.
  split; [intros x y; apply first_colliding_none|].
  assert (C : forall x y, check_collids_entity h' x y (map f es) =
                          option_map f (check_collids_entity h x y es)).
  { intros x y. unfold check_collids_entity. rewrite Hp, Hb. apply first_colliding_map. exact Hf. }
  unfold resolve_entity_collision. rewrite Hp, !C.
  destruct (check_collids_entity h new_x new_y es); [|reflexivity]. simpl.
  destruct (check_collids_entity h new_x (vy (hero_world_pos h)) es); [|reflexivity]. simpl.
  destruct (check_collids_entity h (vx (hero_world_pos h)) new_y es); reflexivity.
Qed.

(** The grabbed, non-solid entity in the way and a hero that grabs
    nothing, against the same entity made solid and visible. *)
Lemma C5_resolver_unfiltered_witness :
  let h := mkHero (mkV3 0 0 0) (mkBBox (mkV3 0 0 0) 2 1) (Some 7%nat) true true false in
  let h' := mkHero (mkV3 0 0 0) (mkBBox (mkV3 0 0 0) 2 1) None false true false in
  let f := fun e => mkEntity (ent_id e) (bbox e) true true in
  let es := [mkEntity 7 (mkBBox (mkV3 14 12 0) 1 1) false false] in
  resolve_entity_collision h' (map f es) 2 0 =
    (fst (resolve_entity_collision h es 2 0), option_map f (snd (resolve_entity_collision h es 2 0))).
Proof.
  cbv zeta.
  apply (C5_resolver_unfiltered
           (mkHero (mkV3 0 0 0) (mkBBox (mkV3 0 0 0) 2 1) (Some 7%nat) true true false)
           (mkHero (mkV3 0 0 0) (mkBBox (mkV3 0 0 0) 2 1) None false true false)
           (fun e => mkEntity (ent_id e) (bbox e) true true)
           [mkEntity 7 (mkBBox (mkV3 14 12 0) 1 1) false false] 2 0);
    [reflexivity|reflexivity|intro e; reflexivity].
Defined.

Section Standing.
Variable hero : Hero.
Variables check_x check_y check_width check_height : Q.

(** The per-entity test of [get_entity_hero_is_standing_on]. *)
Definition stands_on (e : Entity) : bool :=
  solid e && visible e && negb (is_grabbed hero e) &&
  xy_overlap check_x check_y check_width check_height e &&
  Qle_bool (Qabs (vz (hero_world_pos hero) - entity_top e)) (1 # 16).

Definition acc_ok (acc : option (Entity * Q)) : Prop :=
  match acc with Some (e, t) => t = entity_top e | None => True end.

Lemma standing_loop_cons (e : Entity) (rest : list Entity) (acc : option (Entity * Q)) :
  standing_loop hero (e :: rest) check_x check_y check_width check_height acc =
  standing_loop hero rest check_x check_y check_width check_height
    (if stands_on e then
       match acc with
       | None => Some (e, entity_top e)
       | Some (_, h) => if Qltb h (entity_top e) then Some (e, entity_top e) else acc
       end
     else acc).
Proof.
  cbn [standing_loop]. unfold stands_on.
  destruct (solid e), (visible e), (is_grabbed hero e),
           (xy_overlap check_x check_y check_width check_height e),
           (Qle_bool (Qabs (vz (hero_world_pos hero) - entity_top e)) (1 # 16)); reflexivity.
Qed.

Lemma standing_loop_spec (es : list Entity) : forall acc, acc_ok acc ->
  match standing_loop hero es check_x check_y check_width check_height acc with
  | None => acc = None /\ forall e, In e es -> stands_on e = false
  | Some (e, t) =>
      t = entity_top e /\
      (acc = Some (e, t) \/ (In e es /\ stands_on e = true)) /\
      (forall e', In e' es -> stands_on e' = true -> entity_top e' <= t) /\
      (forall e0 h, acc = Some (e0, h) -> h <= t)
  end.
Proof.
  induction es as [|e rest IH]; intros acc Hacc.
  - simpl. destruct acc as [[e t]|]; [|split; [reflexivity|contradiction]].
    simpl in Hacc. repeat split; auto.
    + contradiction.
    + intros e0 h H; inversion H; subst; apply Qle_refl.
  - rewrite standing_loop_cons.
    set (acc' := if stands_on e then _ else acc).
    assert (Hacc' : acc_ok acc').
    { unfold acc', acc_ok. destruct (stands_on e); [|exact Hacc].
      destruct acc as [[e0 h]|]; [destruct (Qltb h (entity_top e)); [reflexivity|exact Hacc]|reflexivity]. }
    specialize (IH acc' Hacc').
    destruct (standing_loop hero rest check_x check_y check_width check_height acc') as [[er tr]|] eqn:Er.
    + destruct IH as [Ht [Hsrc [Hmax Hacc_le]]].
      split; [exact Ht|]. split; [|split].
      * destruct Hsrc as [Hsrc|[Hin Hq]]; [|right; split; [right; exact Hin|exact Hq]].
        unfold acc' in Hsrc. destruct (stands_on e) eqn:Eq.
        -- destruct acc as [[e0 h]|].
           ++ destruct (Qltb h (entity_top e)).
              ** inversion Hsrc; subst. right; split; [left; reflexivity|exact Eq].
              ** left; exact Hsrc.
           ++ inversion Hsrc; subst. right; split; [left; reflexivity|exact Eq].
        -- left; exact Hsrc.
      * intros e' [Heq|Hin] Hq; [subst e'|exact (Hmax e' Hin Hq)].
        unfold acc' in Hacc_le. rewrite Hq in Hacc_le.
        destruct acc as [[e0 h]|].
        -- destruct (Qltb h (entity_top e)) eqn:Elt.
           ++ exact (Hacc_le e (entity_top e) eq_refl).
           ++ apply Qltb_false in Elt. eapply Qle_trans; [exact Elt|exact (Hacc_le e0 h eq_refl)].
        -- exact (Hacc_le e (entity_top e) eq_refl).
      * intros e0 h Heq. subst acc. unfold acc' in Hacc_le.
        destruct (stands_on e).
        -- destruct (Qltb h (entity_top e)) eqn:Elt.
           ++ apply Qltb_spec in Elt. apply Qlt_le_weak in Elt.
              eapply Qle_trans; [exact Elt|exact (Hacc_le e (entity_top e) eq_refl)].
           ++ exact (Hacc_le e0 h eq_refl).
        -- exact (Hacc_le e0 h eq_refl).
    + destruct IH as [Hn Hall]. unfold acc' in Hn.
      destruct (stands_on e) eqn:Eq.
      * destruct acc as [[e0 h]|]; [destruct (Qltb h (entity_top e)); discriminate|discriminate].
      * split; [exact Hn|]. intros e' [Heq|Hin]; [subst e'; exact Eq|exact (Hall e' Hin)].
Qed.

End Standing.

(** C6 (counterexample): the hero's foot at z = 5 over a solid, visible,
    overlapping entity whose top is 1: [get_entity_top_at_position] counts
    it (top 1 <= 5 + 1/16), [get_entity_hero_is_standing_on] does not (it
    requires |z - top| <= 1/16), so the two tests differ. *)
Lemma C6_standing_differs_from_top :
  let e := mkEntity 1 (mkBBox (mkV3 12 12 0) 1 1) true true in
  let h := mkHero (mkV3 0 0 5) (mkBBox (mkV3 0 0 5) 2 1) None false true false in
  let '(cx, cy, cw, ch) := hero_check_rect h in
  get_entity_top_at_position [e] cx cy cw ch 5 = Some 1 /\
  get_entity_hero_is_standing_on h [e] = None.
Proof. vm_compute. split; reflexivity. Qed.

(** C6 (amended): [get_entity_hero_is_standing_on] finds an entity exactly
    when some listed entity is solid, visible, not the hero's grabbed
    entity, overlaps the hero's footprint and has its top within 1/16 of
    the hero's foot Z on either side ([|z - top| <= 1/16]); the entity found
    is such an entity with a maximal top. *)
Theorem C6_standing_on_spec (hero : Hero) (es : list Entity) :
  let '(cx, cy, cw, ch) := hero_check_rect hero in
  (get_entity_hero_is_standing_on hero es = None <->
     forall e, In e es -> stands_on hero cx cy cw ch e = false) /\
  (forall e, get_entity_hero_is_standing_on hero es = Some e ->
     In e es /\ stands_on hero cx cy cw ch e = true /\
     forall e', In e' es -> stands_on hero cx cy cw ch e' = true -> entity_top e' <= entity_top e).
Proof.
  unfold get_entity_hero_is_standing_on.
  destruct (hero_check_rect hero) as [[[cx cy] cw] ch].
  pose proof (standing_loop_spec hero cx cy cw ch es None I) as H.
  destruct (standing_loop hero es cx cy cw ch None) as [[e t]|]; simpl.
  - destruct H as [Ht [[Hs|Hs] [Hmax _]]]; [discriminate|]. subst t.
    split.
    + split; [discriminate|]. intro Hall. destruct Hs as [Hin Hq].
      rewrite (Hall e Hin) in Hq. discriminate.
    + intros e0 He0. inversion He0; subst. destruct Hs. auto.
  - destruct H as [_ Hall]. split; [split; auto|]. discriminate.
Qed.

Import Heightmap.

Definition place_blocks (entity : Entity) (temp_bbox : BoundingBox) (other : Entity) : bool :=
  negb (Nat.eqb (ent_id other) (ent_id entity)) && solid other && visible other &&
  check_entity_collision_3d temp_bbox (bbox other).

Lemma place_blocks_eq (entity : Entity) (tb : BoundingBox) (o : Entity) :
  place_blocks entity tb o =
  negb (Nat.eqb (ent_id o) (ent_id entity) || negb (solid o) || negb (visible o)) &&
  check_entity_collision_3d tb (bbox o).
Proof.
  unfold place_blocks. destruct (Nat.eqb (ent_id o) (ent_id entity)), (solid o), (visible o); reflexivity.
Qed.

Lemma place_loop_spec (entity : Entity) (tb : BoundingBox) (others : list Entity) : forall i,
  (fst (place_loop entity tb i others) = true <->
     forall o, In o others -> place_blocks entity tb o = false) /\
  Forall (fun c => exists j, c = ChkEntity j) (snd (place_loop entity tb i others)).
Proof.
  induction others as [|o rest IH]; intro i; simpl.
  - split; [split; [intros _ o []|reflexivity]|constructor].
  - destruct (IH (S i)) as [[H1 H2] H3].
    destruct (Nat.eqb (ent_id o) (ent_id entity) || negb (solid o) || negb (visible o)) eqn:Ex.
    + split; [split|exact H3].
      * intros Hf o' [Heq|Hin]; [subst o'; rewrite place_blocks_eq, Ex; reflexivity|auto].
      * intro Hall; apply H2; intros o' Hin; apply Hall; right; exact Hin.
    + destruct (check_entity_collision_3d tb (bbox o)) eqn:Ec.
      * simpl. split; [split; [discriminate|]|repeat constructor; eauto].
        intro Hall. specialize (Hall o (or_introl eq_refl)).
        rewrite place_blocks_eq, Ex, Ec in Hall. discriminate.
      * destruct (place_loop entity tb (S i) rest) as [b tr] eqn:Epl; simpl in *.
        split; [split|constructor; eauto].
        -- intros Hb o' [Heq|Hin]; [subst o'; rewrite place_blocks_eq, Ex, Ec; reflexivity|auto].
        -- intro Hall; apply H2; intros o' Hin; apply Hall; right; exact Hin.
Qed.

(** C7: [can_place_entity_at_position] runs, in order, the bounds test on
    [(int(x), int(y))], the walkability test, the height test
    [terrain_z - hero_z > 2] and the collision tests against the other
    solid, visible entities (the placed entity excluded), stopping at the
    first failure; it returns true only when all pass.  When the height
    test fails the result is false for every entity list and no collision
    test is evaluated. *)
Theorem C7_placement_order (hero_z : Q) (entity : Entity) (x y z : Q)
        (others : list Entity) (hm : Heightmap) :
  let tile_x := py_int x in
  let tile_y := py_int y in
  let out_of_bounds := ((tile_x <? 0) || (tile_y <? 0) ||
                        (tile_x >=? get_width hm) || (tile_y >=? get_height hm))%Z in
  let temp_bbox := mkBBox (mkV3 x y z) (height_in_tiles (bbox entity)) (size_in_tiles (bbox entity)) in
  let r := can_place_trace hero_z entity x y z others hm in
  (out_of_bounds = true -> r = Ok (false, [ChkBounds])) /\
  (forall c, out_of_bounds = false -> get_cell hm tile_x tile_y = Ok (Some c) ->
     is_walkable c = false -> r = Ok (false, [ChkBounds; ChkWalkable])) /\
  (forall c, out_of_bounds = false -> get_cell hm tile_x tile_y = Ok (Some c) ->
     is_walkable c = true -> 2 < inject_Z (height c) - hero_z ->
     r = Ok (false, [ChkBounds; ChkWalkable; ChkHeight])) /\
  (forall c, out_of_bounds = false -> get_cell hm tile_x tile_y = Ok (Some c) ->
     is_walkable c = true -> inject_Z (height c) - hero_z <= 2 ->
     exists b tr, r = Ok (b, ChkBounds :: ChkWalkable :: ChkHeight :: tr) /\
       Forall (fun k => exists j, k = ChkEntity j) tr /\
       (b = true <-> forall o, In o others -> place_blocks entity temp_bbox o = false)).
Proof.
  cbv zeta. unfold can_place_trace.
  repeat split.
  - intro H. rewrite H. reflexivity.
  - intros c Hb Hc Hw. rewrite Hb, Hc. simpl. rewrite Hw. reflexivity.
  - intros c Hb Hc Hw Hh. rewrite Hb, Hc. simpl. rewrite Hw. simpl.
    apply Qltb_spec in Hh. rewrite Hh. reflexivity.
  - intros c Hb Hc Hw Hh. rewrite Hb, Hc. simpl. rewrite Hw. simpl.
    apply Qltb_false in Hh. rewrite Hh.
    pose proof (place_loop_spec entity
                  (mkBBox (mkV3 x y z) (height_in_tiles (bbox entity)) (size_in_tiles (bbox entity)))
                  others 0) as [H1 H2].
    destruct (place_loop entity _ 0 others) as [b tr]. simpl in *.
    exists b, tr. auto.
Qed.

End CollisionFacts.

Module GravityFacts.
Import Heightmap Collision Gravity.

Definition flat_grid : Heightmap :=
  mkHeightmap 0 0 (repeat (repeat (mkCell 0 0) 4) 4).

(** A hero of footprint 1 at [(16, 16, z)], [tileheight = 16], on a flat
    4x4 grid of height 0 with no entities. *)
Definition game_at (z : Q) : Game :=
  mkGame (mkHero (mkV3 16 16 z) (mkBBox (mkV3 16 16 z) 2 1) None false false false)
         [] flat_grid 16.

(** C3 (code bug): a hero that is not jumping, at any height above the
    flat grid (resting on it at z = 0, or 3 units above it), never gets
    through [apply_gravity]: the stale call at line 644 raises
    [TypeError] before the support surface is compared with the hero's
    foot, so Z is never snapped, lowered or kept and [touch_ground] is
    never set. *)
Theorem C3_walking_hero_raises (z : Q) :
  corner_tiles (game_at z) = Ok [(1, 1); (1, 1); (1, 1); (1, 1)]%Z /\
  max_ground_height (game_at z) [(1, 1); (1, 1); (1, 1); (1, 1)]%Z = Ok 0 /\
  apply_gravity (game_at z) = Raise TypeError.
Proof. vm_compute. repeat split; reflexivity. Qed.

End GravityFacts.

Module WarpFacts.
Import Warp.

Definition scenario_warp : Warp :=
  mkWarp 1 2 10 10 2 2 2 2.

(** C4 (counterexample): for spec Scenario 4 (room1 rectangle (10,10,2,2),
    room2 rectangle (2,2,2,2)) the destination from room 1 is (-10,-10),
    not the (3,3) of the paired-rectangle mapping. *)
Lemma C4_scenario4_destination :
  get_destination scenario_warp 1 = ((-10)%Z, (-10)%Z) /\
  get_destination scenario_warp 1 <> (3%Z, 3%Z) /\
  get_target_room scenario_warp 1 = 2%Z.
Proof. vm_compute. repeat split; discriminate. Qed.

(** C4 (amended): [get_destination] does not depend on the triggering
    tile: from room1 it is room2's stored origin [(x2, y2)] shifted by -12
    tiles on both axes, with target room room2; from any other room it is
    room1's origin [(x, y)] shifted by -12, with target room room1. *)
Theorem C4_destination_origin (w : Warp) (current_room : Z) :
  (current_room = room1 w ->
     get_destination w current_room = ((x2 w - 12)%Z, (y2 w - 12)%Z) /\
     get_target_room w current_room = room2 w) /\
  (current_room <> room1 w ->
     get_destination w current_room = ((x w - 12)%Z, (y w - 12)%Z) /\
     get_target_room w current_room = room1 w).
Proof.
  unfold get_destination, get_target_room. split; intro H.
  - subst. rewrite Z.eqb_refl. auto.
  - apply Z.eqb_neq in H. rewrite H. auto.
Qed.

End WarpFacts.

Module WarpCheckFacts.
Import Warp WarpCheck.

Section Facts.
Variable tile_h : Z.
Variable warps : list Warp.
Variables room_room_number room_number : Z.

Definition keeps_tile (T : Z * Z) (f : Frame) : Prop :=
  match f with
  | FCheck rect => current_tile tile_h rect = Ok T
  | FWarpReset dest => dest = T
  end.

Lemma check_same_tile (T : Z * Z) (rect : Q * Q * Q * Q) :
  current_tile tile_h rect = Ok T ->
  check_warp_collision tile_h warps room_room_number room_number T rect = Ok (false, T).
Proof.
  intro H. unfold check_warp_collision. rewrite H. simpl.
  destruct T as [tx ty]. rewrite !Z.eqb_refl. reflexivity.
Qed.

Lemma run_stay (T : Z * Z) (fs : list Frame) :
  Forall (keeps_tile T) fs ->
  run tile_h warps room_room_number room_number T fs = Ok (O, T).
Proof.
  induction 1 as [|f fs Hf Hfs IH]; [reflexivity|].
  destruct f as [rect|dest]; simpl in Hf |- *.
  - rewrite (check_same_tile T rect Hf). simpl. rewrite IH. reflexivity.
  - subst dest. exact IH.
Qed.

(** C8: [check_warp_collision] evaluates no warp when the hero's tile
    equals the recorded one, and otherwise records the new tile; hence a
    repeated check at the same tile fires nothing, and over any run of
    frames that enters tile T and keeps the recorded tile at T (checks at T,
    or the fade callback writing T) at most one call fires. *)
Theorem C8_edge_triggered :
  (forall T rect, current_tile tile_h rect = Ok T ->
     check_warp_collision tile_h warps room_room_number room_number T rect = Ok (false, T)) /\
  (forall prev cur rect, current_tile tile_h rect = Ok cur -> cur <> prev ->
     exists fired, check_warp_collision tile_h warps room_room_number room_number prev rect
                   = Ok (fired, cur)) /\
  (forall prev T rect0 fs, current_tile tile_h rect0 = Ok T -> Forall (keeps_tile T) fs ->
     exists n, run tile_h warps room_room_number room_number prev (FCheck rect0 :: fs) = Ok (n, T)
               /\ (n <= 1)%nat).
Proof.
  split; [exact check_same_tile|split].
  - intros [px py] [cx cy] rect Hc Hne. unfold check_warp_collision. rewrite Hc. simpl.
    destruct (Z.eqb cx px) eqn:Ex, (Z.eqb cy py) eqn:Ey; simpl;
      try (eexists; reflexivity).
    apply Z.eqb_eq in Ex, Ey. subst. contradiction.
  - intros [px py] T rect0 fs Hc Hfs. simpl.
    unfold check_warp_collision. rewrite Hc. simpl. destruct T as [tx ty].
    destruct ((tx =? px) && (ty =? py))%Z eqn:E; simpl.
    + apply andb_true_iff in E as [E1 E2]. apply Z.eqb_eq in E1, E2. subst.
      rewrite (run_stay (px, py) fs Hfs). simpl. exists O. split; [reflexivity|lia].
    + rewrite (run_stay (tx, ty) fs Hfs). simpl.
      destruct (warp_loop room_room_number room_number rect0 warps);
        eexists; (split; [reflexivity|lia]).
Qed.

End Facts.
End WarpCheckFacts.

Module HeightmapFacts.
Import Heightmap.

Definition sentinel_blocked : HeightmapCell := mkCell 0 4.

(** C9 (counterexample): on an empty grid, [get_cell 0 0] returns [None],
    not a "blocked, height 0" cell. *)
Lemma C9_out_of_range_is_none :
  get_cell (mkHeightmap 0 0 []) 0 0 = Ok None /\
  get_cell (mkHeightmap 0 0 []) 0 0 <> Ok (Some sentinel_blocked).
Proof. split; [reflexivity|discriminate]. Qed.

(** C9 (amended): for coordinates outside the grid's index range
    ([y] outside [0, len cells), or [x] outside [0, width of row 0)),
    [get_cell] returns [None] (no cell object) and raises nothing. *)
Theorem C9_get_cell_out_of_range (hm : Heightmap) (x y : Z)
        (H : (y < 0 \/ Z.of_nat (length (cells hm)) <= y \/ x < 0 \/ get_width hm <= x)%Z) :
  get_cell hm x y = Ok None.
Proof.
  unfold get_cell.
  destruct ((0 <=? y) && (y <? Z.of_nat (length (cells hm))) && (0 <=? x) && (x <? get_width hm))%Z eqn:E;
    [|reflexivity].
  rewrite !andb_true_iff, Z.leb_le, Z.ltb_lt, Z.leb_le, Z.ltb_lt in E. lia.
Qed.

Lemma C9_get_cell_out_of_range_witness :
  get_cell (mkHeightmap 0 0 [[mkCell 1 0]]) 5 0 = Ok None.
Proof. apply C9_get_cell_out_of_range. right; right; right. unfold get_width; simpl. lia. Defined.

End HeightmapFacts.

Module DrawableFacts.
Import Drawable.

Lemma Forall_replace {A} (P : A -> Prop) (l : list A) (i : nat) (v : A) :
  Forall P l -> P v -> Forall P (replace_nth l i v).
Proof.
  intros Hl Hv. revert i. induction Hl as [|h t Hh Ht IH]; intros [|i]; simpl; constructor; auto.
Qed.

Lemma modify_pos_actors (w : World) i f : actors (modify_pos w i f) = actors w.
Proof. unfold modify_pos. destruct (nth_error (actors w) i); reflexivity. Qed.

Lemma rebind_bbox_aliased (w : World) i :
  Forall aliased (actors w) -> Forall aliased (actors (rebind_bbox w i)).
Proof.
  intro H. unfold rebind_bbox. destruct (nth_error (actors w) i) as [a|]; [|exact H].
  destruct (bbox_loc a); [|exact H]. simpl.
  apply Forall_replace; [exact H|reflexivity].
Qed.

Lemma step_aliased (w : World) (op : Op) :
  Forall aliased (actors w) -> Forall aliased (actors (step w op)).
Proof.
  intro H. destruct op; simpl;
    try (rewrite modify_pos_actors; exact H).
  - apply Forall_app. split; [exact H|]. constructor; [reflexivity|constructor].
  - apply rebind_bbox_aliased. rewrite modify_pos_actors. exact H.
  - destruct (nth_error (actors w) i); exact H.
  - apply rebind_bbox_aliased. exact H.
Qed.

Lemma exec_aliased (ops : list Op) : forall w,
  Forall aliased (actors w) -> Forall aliased (actors (exec w ops)).
Proof.
  induction ops as [|op ops IH]; intros w H; [exact H|].
  simpl. apply IH. apply step_aliased. exact H.
Qed.

(** C10: in every world reached from the empty one by constructing actors
    and applying [set_world_pos], [set_world_x/y/z], [add_world_x/y/z],
    [update_prev_position] and the game's [bbox.update_position] call,
    every actor's [bbox.world_pos] is the very object [_world_pos], so the
    position a collision query reads through the bounding box is the
    actor's current position. *)
Theorem C10_bbox_aliases_position (ops : list Op) :
  let w := exec empty_world ops in
  Forall aliased (actors w) /\
  forall a, In a (actors w) -> bbox_world_pos w a = Some (get_world_pos w a).
Proof.
  cbv zeta. pose proof (exec_aliased ops empty_world (Forall_nil _)) as H.
  split; [exact H|].
  intros a Ha. rewrite Forall_forall in H. unfold bbox_world_pos, get_world_pos.
  rewrite (H a Ha). reflexivity.
Qed.

End DrawableFacts.

Module CollisionMoreFacts.
Import Collision CollisionMore.
Import Strings.String.
Local Open Scope string_scope.

Lemma if_negb_false (b c : bool) : (if negb b then false else c) = b && c.
Proof. destruct b; reflexivity. Qed.

Lemma check_true_iff (m t : BoundingBox) :
  check_entity_collision_3d m t = true <->
  vx (world_pos m) + MARGIN < vx (world_pos t) + MARGIN - 12 + (size_in_tiles t - MARGIN * 2) /\
  vx (world_pos t) + MARGIN - 12 < vx (world_pos m) + MARGIN + (size_in_tiles m - MARGIN * 2) /\
  vy (world_pos m) + MARGIN < vy (world_pos t) + MARGIN - 12 + (size_in_tiles t - MARGIN * 2) /\
  vy (world_pos t) + MARGIN - 12 < vy (world_pos m) + MARGIN + (size_in_tiles m - MARGIN * 2) /\
  vz (world_pos m) < vz (world_pos t) + height_in_tiles t /\
  vz (world_pos t) < vz (world_pos m) + height_in_tiles m.
Proof.
  unfold check_entity_collision_3d. cbv zeta.
  rewrite if_negb_false, !andb_true_iff, !Qltb_spec. tauto.
Qed.

(** X1: the target-side shift of -12 tiles is a change of frame: a moving
    box collides with a target exactly when the target, moved by -12
    tiles, collides as the moving box with the first box moved by +12
    tiles as the target. *)
Theorem collision_frame_swap (m t : BoundingBox) :
  check_entity_collision_3d m t =
  check_entity_collision_3d (shift_xy t (-12)) (shift_xy m 12).
Proof.
  apply eq_iff_eq_true. rewrite !check_true_iff. unfold shift_xy. cbn.
  split; intros [H1 [H2 [H3 [H4 [H5 H6]]]]]; repeat split; lra.
Qed.

(** X2: [get_touching_entities] keeps, in list order, exactly the
    entities that are not the hero's grabbed entity, are visible and
    collide with the hero's own bounding box; solidity is not consulted. *)
Theorem touching_entities_spec (hero : Hero) (es : list Entity) :
  get_touching_entities hero es =
    filter (fun e => negb (is_grabbed hero e) && visible e &&
                     check_entity_collision_3d (hero_bbox hero) (bbox e)) es /\
  (forall e, In e (get_touching_entities hero es) <->
     In e es /\ is_grabbed hero e = false /\ visible e = true /\
     check_entity_collision_3d (hero_bbox hero) (bbox e) = true).
Proof.
  assert (Heq : get_touching_entities hero es =
    filter (fun e => negb (is_grabbed hero e) && visible e &&
                     check_entity_collision_3d (hero_bbox hero) (bbox e)) es).
  { induction es as [|e rest IH]; [reflexivity|]. simpl.
    destruct (is_grabbed hero e), (visible e), (check_entity_collision_3d (hero_bbox hero) (bbox e));
      simpl; rewrite ?IH; reflexivity. }
  split; [exact Heq|]. intro e. rewrite Heq, filter_In, !andb_true_iff, negb_true_iff. tauto.
Qed.

(** X3: the position in front of the hero is one tile up, down, left or
    right for the orientations "UP", "DOWN", "LEFT" and "RIGHT", and the
    hero's own position for every other orientation, such as the compass
    value 'SW' that [Drawable.__init__] gives. *)
Theorem front_position_spec (hero : Hero) :
  let p := hero_world_pos hero in
  get_position_in_front_of_hero "UP" hero = (vx p, vy p - 1) /\
  get_position_in_front_of_hero "DOWN" hero = (vx p, vy p + 1) /\
  get_position_in_front_of_hero "LEFT" hero = (vx p - 1, vy p) /\
  get_position_in_front_of_hero "RIGHT" hero = (vx p + 1, vy p) /\
  forall o, o <> "UP" -> o <> "DOWN" -> o <> "LEFT" -> o <> "RIGHT" ->
    get_position_in_front_of_hero o hero = (vx p, vy p).
Proof.
  cbv zeta. repeat split. intros o H1 H2 H3 H4. unfold get_position_in_front_of_hero.
  apply String.eqb_neq in H1, H2, H3, H4. rewrite H1, H2, H3, H4. reflexivity.
Qed.

Lemma front_loop_find (hero : Hero) (fx fy : Q) (es : list Entity) :
  front_loop hero fx fy es = find (in_front hero fx fy) es.
Proof.
  induction es as [|e rest IH]; [reflexivity|]. simpl. unfold in_front.
  destruct (visible e), (is_grabbed hero e), (xy_overlap fx fy check_size check_size e); simpl; try exact IH.
  destruct (_ && _); [reflexivity|exact IH].
Qed.

(** X4: [get_entity_in_front_of_hero] returns the first listed entity
    that is visible, is not the grabbed entity, overlaps the 0.8-tile
    square at the position in front and overlaps the hero in Z; it never
    reads [solid], so making entities solid or not changes nothing but
    that flag of the result. *)
Theorem entity_in_front_spec (o : String.string) (hero : Hero) (es : list Entity) :
  let '(fx, fy) := get_position_in_front_of_hero o hero in
  get_entity_in_front_of_hero o hero es = find (in_front hero fx fy) es /\
  forall b, get_entity_in_front_of_hero o hero (map (set_solid b) es) =
            option_map (set_solid b) (get_entity_in_front_of_hero o hero es).
Proof.
  unfold get_entity_in_front_of_hero.
  destruct (get_position_in_front_of_hero o hero) as [fx fy].
  rewrite front_loop_find. split; [reflexivity|]. intro b. rewrite front_loop_find.
  induction es as [|e rest IH]; [reflexivity|]. simpl.
  replace (in_front hero fx fy (set_solid b e)) with (in_front hero fx fy e) by reflexivity.
  destruct (in_front hero fx fy e); [reflexivity|exact IH].
Qed.

End CollisionMoreFacts.

Module TopFacts.
Import Collision CollisionMore.

Section Top.
Variables check_x check_y check_width check_height hero_z : Q.

Let q := top_qualifies check_x check_y check_width check_height hero_z.

Lemma top_loop_cons (e : Entity) (rest : list Entity) (acc : option Q) :
  top_loop (e :: rest) check_x check_y check_width check_height hero_z acc =
  top_loop rest check_x check_y check_width check_height hero_z
    (if q e then
       match acc with
       | None => Some (entity_top e)
       | Some h => if Qltb h (entity_top e) then Some (entity_top e) else acc
       end
     else acc).
Proof.
  cbn [top_loop]. unfold q, top_qualifies.
  destruct (solid e), (visible e), (xy_overlap check_x check_y check_width check_height e),
           (Qle_bool (entity_top e) (hero_z + (1 # 16))); reflexivity.
Qed.

Lemma top_loop_spec (es : list Entity) : forall acc,
  match top_loop es check_x check_y check_width check_height hero_z acc with
  | None => acc = None /\ forall e, In e es -> q e = false
  | Some t =>
      (acc = Some t \/ exists e, In e es /\ q e = true /\ entity_top e = t) /\
      (forall e, In e es -> q e = true -> entity_top e <= t) /\
      (forall h, acc = Some h -> h <= t)
  end.
Proof.
  induction es as [|e rest IH]; intro acc.
  - simpl. destruct acc as [t|]; [|split; [reflexivity|contradiction]].
    split; [left; reflexivity|]. split; [contradiction|].
    intros h H; inversion H; subst; apply Qle_refl.
  - rewrite top_loop_cons.
    set (acc' := if q e then _ else acc).
    specialize (IH acc').
    destruct (top_loop rest check_x check_y check_width check_height hero_z acc') as [t|] eqn:Er.
    + destruct IH as [Hsrc [Hmax Hacc]]. split; [|split].
      * destruct Hsrc as [Hsrc|[e' [Hin [Hq Ht]]]];
          [|right; exists e'; split; [right; exact Hin|split; assumption]].
        unfold acc' in Hsrc. destruct (q e) eqn:Eq.
        -- destruct acc as [h|].
           ++ destruct (Qltb h (entity_top e)).
              ** inversion Hsrc; subst. right. exists e. split; [left; reflexivity|split; [exact Eq|reflexivity]].
              ** left; exact Hsrc.
           ++ inversion Hsrc; subst. right. exists e. split; [left; reflexivity|split; [exact Eq|reflexivity]].
        -- left; exact Hsrc.
      * intros e' [Heq|Hin] Hq; [subst e'|exact (Hmax e' Hin Hq)].
        unfold acc' in Hacc. rewrite Hq in Hacc.
        destruct acc as [h|].
        -- destruct (Qltb h (entity_top e)) eqn:Elt.
           ++ exact (Hacc (entity_top e) eq_refl).
           ++ apply Qltb_false in Elt. eapply Qle_trans; [exact Elt|exact (Hacc h eq_refl)].
        -- exact (Hacc (entity_top e) eq_refl).
      * intros h Heq. subst acc. unfold acc' in Hacc.
        destruct (q e).
        -- destruct (Qltb h (entity_top e)) eqn:Elt.
           ++ apply Qltb_spec in Elt. apply Qlt_le_weak in Elt.
              eapply Qle_trans; [exact Elt|exact (Hacc (entity_top e) eq_refl)].
           ++ exact (Hacc h eq_refl).
        -- exact (Hacc h eq_refl).
    + destruct IH as [Hn Hall]. unfold acc' in Hn.
      destruct (q e) eqn:Eq.
      * destruct acc as [h|]; [destruct (Qltb h (entity_top e)); discriminate|discriminate].
      * split; [exact Hn|]. intros e' [Heq|Hin]; [subst e'; exact Eq|exact (Hall e' Hin)].
Qed.

End Top.

(** X5: [get_entity_top_at_position] returns [None] exactly when no listed
    entity is solid, visible, overlapping the check rectangle and with its
    top at most 1/16 above [hero_z]; otherwise it returns the top of such
    an entity, and that top is the largest of all of them. *)
Theorem entity_top_spec (es : list Entity) (cx cy cw ch z : Q) :
  (get_entity_top_at_position es cx cy cw ch z = None <->
     forall e, In e es -> top_qualifies cx cy cw ch z e = false) /\
  (forall t, get_entity_top_at_position es cx cy cw ch z = Some t ->
     exists e, In e es /\ top_qualifies cx cy cw ch z e = true /\ entity_top e = t /\
       forall e', In e' es -> top_qualifies cx cy cw ch z e' = true -> entity_top e' <= t).
Proof.
  unfold get_entity_top_at_position.
  pose proof (top_loop_spec cx cy cw ch z es None) as H.
  destruct (top_loop es cx cy cw ch z None) as [t|].
  - destruct H as [[Hs|[e [Hin [Hq Ht]]]] [Hmax _]]; [discriminate|].
    split.
    + split; [discriminate|]. intro Hall. rewrite (Hall e Hin) in Hq. discriminate.
    + intros t0 Ht0. inversion Ht0; subst. exists e. auto.
  - destruct H as [_ Hall]. split; [split; auto|]. discriminate.
Qed.

End TopFacts.

Module CarryFacts.
Import Collision Gravity Carry.

Lemma delta_copy_zero (p : Vector3) : nonzero (get_position_delta p (copy_pos p)) = false.
Proof.
  unfold nonzero, get_position_delta, copy_pos. simpl.
  assert (E : forall a : Q, Qeq_bool (a - a) 0 = true) by (intro a; apply Qeq_bool_iff; ring).
  rewrite !E. reflexivity.
Qed.

Lemma map_replace_same {A B} (f : A -> B) (l : list A) (i : nat) (v : A) :
  (forall a, nth_error l i = Some a -> f v = f a) -> map f (Drawable.replace_nth l i v) = map f l.
Proof.
  revert i. induction l as [|h t IH]; intros [|i] H; simpl; try reflexivity.
  - rewrite (H h eq_refl). reflexivity.
  - rewrite (IH i H). reflexivity.
Qed.

Definition mover_id (m : Mover) : nat := ent_id (m_ent m).

Lemma entity_step_ids (ms : list Mover) (i : nat) :
  map mover_id (entity_step ms i) = map mover_id ms.
Proof.
  unfold entity_step. destruct (nth_error ms i) as [m|] eqn:N; [|reflexivity]. cbv zeta.
  destruct (get_entity_top_at_position _ _ _ _ _ _); [|reflexivity].
  destruct (find _ ms); [|reflexivity].
  destruct (nonzero _); [|reflexivity].
  apply map_replace_same. intros a Ha. rewrite N in Ha. inversion Ha. reflexivity.
Qed.

Lemma entity_loop_ids (ms : list Mover) : map mover_id (entity_loop ms) = map mover_id ms.
Proof.
  unfold entity_loop. generalize (seq 0 (length ms)) as l. intro l. revert ms.
  induction l as [|i l IH]; intro ms; [reflexivity|]. simpl. rewrite IH. apply entity_step_ids.
Qed.

Lemma hero_branch_movers (st : CarryState) : c_movers (fst (hero_branch st)) = c_movers st.
Proof.
  unfold hero_branch. destruct (get_entity_hero_is_standing_on _ _) as [e|]; [|reflexivity].
  destruct (find _ _) as [so|]; [|reflexivity].
  destruct (nonzero _); reflexivity.
Qed.

Lemma hero_branch_none (st st1 : CarryState) : hero_branch st = (st1, None) -> st1 = st.
Proof.
  unfold hero_branch. destruct (get_entity_hero_is_standing_on _ _) as [e|]; [|congruence].
  destruct (find _ _) as [so|]; [|congruence].
  destruct (nonzero _); congruence.
Qed.

(** X6: when [update_carried_positions] returns normally, the hero has
    not been moved (moving it raises), the hero and every entity have a
    zero [get_position_delta] afterwards, and the entity list holds the
    same objects in the same order. *)
Theorem carry_resets_deltas (st st' : CarryState) (H : update_carried_positions st = (st', None)) :
  c_hero st' = c_hero st /\
  nonzero (get_position_delta (hero_world_pos (c_hero st')) (c_hero_prev st')) = false /\
  (forall m, In m (c_movers st') -> nonzero (get_position_delta (m_pos m) (m_prev m)) = false) /\
  map mover_id (c_movers st') = map mover_id (c_movers st).
Proof.
  unfold update_carried_positions in H.
  pose proof (hero_branch_movers st) as Hm.
  pose proof (hero_branch_none st) as Hn.
  destruct (hero_branch st) as [st1 [e|]]; [discriminate|].
  specialize (Hn st1 eq_refl). subst st1.
  inversion H; subst st'; clear H. simpl in Hm |- *.
  split; [reflexivity|]. split; [apply delta_copy_zero|]. split.
  - intros m Hin. apply in_map_iff in Hin. destruct Hin as [m0 [<- _]].
    unfold update_prev, m_pos at 1. simpl. apply delta_copy_zero.
  - rewrite map_map. unfold mover_id at 1. simpl.
    change (map mover_id (entity_loop (c_movers st)) = map mover_id (c_movers st)).
    apply entity_loop_ids.
Qed.

Definition lone_hero : Hero := mkHero (mkV3 1 1 1) (mkBBox (mkV3 1 1 1) 2 1) None false true false.

Lemma carry_resets_deltas_witness :
  let st := mkCarry lone_hero (mkV3 0 0 0) [] in
  let st' := mkCarry lone_hero (mkV3 1 1 1) [] in
  update_carried_positions st = (st', None) /\
  c_hero st' = c_hero st /\
  nonzero (get_position_delta (hero_world_pos (c_hero st')) (c_hero_prev st')) = false /\
  (forall m, In m (c_movers st') -> nonzero (get_position_delta (m_pos m) (m_prev m)) = false) /\
  map mover_id (c_movers st') = map mover_id (c_movers st).
Proof.
  split; [vm_compute; reflexivity|].
  apply carry_resets_deltas. vm_compute. reflexivity.
Defined.


Lemma hero_branch_rest (st : CarryState) :
  (forall m, In m (c_movers st) -> nonzero (get_position_delta (m_pos m) (m_prev m)) = false) ->
  hero_branch st = (st, None).
Proof.
  intro H. unfold hero_branch. destruct (get_entity_hero_is_standing_on _ _) as [e|]; [|reflexivity].
  destruct (find _ _) as [so|] eqn:F; [|reflexivity].
  apply find_some in F. destruct F as [Hin _]. rewrite (H so Hin). reflexivity.
Qed.

Lemma entity_step_rest (ms : list Mover) (i : nat) :
  (forall m, In m ms -> nonzero (get_position_delta (m_pos m) (m_prev m)) = false) ->
  entity_step ms i = ms.
Proof.
  intro H. unfold entity_step. destruct (nth_error ms i) as [m|]; [|reflexivity]. cbv zeta.
  destruct (get_entity_top_at_position _ _ _ _ _ _); [|reflexivity].
  destruct (find _ ms) as [o|] eqn:F; [|reflexivity].
  apply find_some in F. destruct F as [Hin _]. rewrite (H o Hin). reflexivity.
Qed.

(** X7: when no entity has moved since its last [update_prev_position]
    (every delta is zero), [update_carried_positions] raises nothing and
    moves neither the hero nor any entity. *)
Theorem carry_at_rest (st : CarryState)
  (H : forall m, In m (c_movers st) -> nonzero (get_position_delta (m_pos m) (m_prev m)) = false) :
  let '(st', exc) := update_carried_positions st in
  exc = None /\ c_hero st' = c_hero st /\ map m_ent (c_movers st') = map m_ent (c_movers st).
Proof.
  unfold update_carried_positions. rewrite (hero_branch_rest st H).
  assert (E : entity_loop (c_movers st) = c_movers st).
  { unfold entity_loop. generalize (seq 0 (length (c_movers st))) as l. intro l.
    induction l as [|i l IH]; [reflexivity|]. simpl. rewrite (entity_step_rest _ i H). exact IH. }
  simpl. rewrite E, map_map. split; [reflexivity|split; [reflexivity|]]. reflexivity.
Qed.

Definition resting_crate : Mover :=
  mkMover (mkEntity 1 (mkBBox (mkV3 12 12 0) 1 1) true true) (mkV3 12 12 0).

Lemma carry_at_rest_witness :
  let st := mkCarry lone_hero (mkV3 1 1 1) [resting_crate] in
  (forall m, In m (c_movers st) -> nonzero (get_position_delta (m_pos m) (m_prev m)) = false) /\
  let '(st', exc) := update_carried_positions st in
  exc = None /\ c_hero st' = c_hero st /\ map m_ent (c_movers st') = map m_ent (c_movers st).
Proof.
  cbv zeta.
  assert (H : forall m, In m [resting_crate] ->
                nonzero (get_position_delta (m_pos m) (m_prev m)) = false).
  { intros m [<-|[]]. vm_compute. reflexivity. }
  split; [exact H|].
  exact (carry_at_rest (mkCarry lone_hero (mkV3 1 1 1) [resting_crate]) H).
Defined.

(** X8: a hero found standing on an entity that moved by a non-zero delta
    [d] has its position written as position + [d], and then
    [update_carried_positions] raises [TypeError] from that
    [hero.set_world_pos] call, grabbing or not: no entity is moved and the
    hero's [prev_world_pos] is not updated. *)
Theorem carry_hero_rides (st : CarryState) (e : Entity) (so : Mover)
  (Hs : get_entity_hero_is_standing_on (c_hero st) (map m_ent (c_movers st)) = Some e)
  (Hf : find (same_object e) (c_movers st) = Some so)
  (Hd : nonzero (get_position_delta (m_pos so) (m_prev so)) = true) :
  let h := c_hero st in
  let d := get_position_delta (m_pos so) (m_prev so) in
  let '(st', exc) := update_carried_positions st in
  exc = Some Exn.TypeError /\
  hero_world_pos (c_hero st') = vadd (hero_world_pos h) d /\
  c_movers st' = c_movers st /\ c_hero_prev st' = c_hero_prev st.
Proof.
  cbv zeta. unfold update_carried_positions, hero_branch. cbv zeta.
  rewrite Hs, Hf, Hd. simpl. auto.
Qed.

Definition rising_lift : Mover :=
  mkMover (mkEntity 1 (mkBBox (mkV3 12 12 1) 1 1) true true) (mkV3 12 12 0).

Lemma carry_hero_rides_witness :
  let st := mkCarry (mkHero (mkV3 0 0 2) (mkBBox (mkV3 0 0 2) 2 1) None false true false)
                    (mkV3 0 0 2) [rising_lift] in
  let '(st', exc) := update_carried_positions st in
  exc = Some Exn.TypeError /\
  hero_world_pos (c_hero st') = vadd (hero_world_pos (c_hero st)) (mkV3 0 0 1) /\
  c_movers st' = c_movers st /\ c_hero_prev st' = c_hero_prev st.
Proof.
  exact (carry_hero_rides
           (mkCarry (mkHero (mkV3 0 0 2) (mkBBox (mkV3 0 0 2) 2 1) None false true false)
                    (mkV3 0 0 2) [rising_lift])
           (m_ent rising_lift) rising_lift
           ltac:(vm_compute; reflexivity) ltac:(vm_compute; reflexivity) ltac:(vm_compute; reflexivity)).
Defined.

End CarryFacts.

Module GameMoreFacts.
Import Heightmap Gravity GameMore HeightmapLoad.
Import Strings.String.
Local Open Scope string_scope.

Lemma get_cell_rect (hm : Heightmap) (x y : Z) :
  rectangular hm ->
  exists o, get_cell hm x y = Ok o /\
    (o = None <-> ~ (0 <= y < Z.of_nat (List.length (cells hm)) /\ 0 <= x < get_width hm)%Z).
Proof.
  intro Hr. unfold get_cell.
  destruct ((0 <=? y) && (y <? Z.of_nat (List.length (cells hm))) && (0 <=? x) && (x <? get_width hm))%Z eqn:E.
  - rewrite !andb_true_iff, !Z.leb_le, !Z.ltb_lt in E.
    unfold py_index. destruct (y <? 0)%Z eqn:Ey; [apply Z.ltb_lt in Ey; lia|].
    destruct (nth_error (cells hm) (Z.to_nat y)) as [row|] eqn:Ny.
    2: { apply nth_error_None in Ny. lia. }
    simpl. destruct (x <? 0)%Z eqn:Ex; [apply Z.ltb_lt in Ex; lia|].
    assert (Hrow : Z.of_nat (List.length row) = get_width hm).
    { unfold rectangular in Hr. rewrite Forall_forall in Hr. apply Hr. eapply nth_error_In. exact Ny. }
    destruct (nth_error row (Z.to_nat x)) as [c|] eqn:Nx.
    2: { apply nth_error_None in Nx. lia. }
    exists (Some c). split; [reflexivity|]. split; [discriminate|]. intro Hn. exfalso. apply Hn. lia.
  - exists None. split; [reflexivity|]. split; [|reflexivity]. intros _ Hin.
    rewrite <- Z.leb_le, <- Z.ltb_lt, <- (Z.leb_le 0 x), <- (Z.ltb_lt x) in Hin.
    destruct Hin as [[H1 H2] [H3 H4]]. rewrite H1, H2, H3, H4 in E. discriminate.
Qed.

(** X9: on a rectangular heightmap, [can_move_to] raises nothing and
    returns [True] exactly when every listed cell is on the grid, is
    walkable and has [height * tile_h] at most the hero's foot Z. *)
Theorem can_move_to_spec (g : Game) (next_x next_y : Q) (check_cells : list (Z * Z))
  (Hr : rectangular (heightmap g)) :
  (exists b, can_move_to g next_x next_y check_cells = Ok b) /\
  (can_move_to g next_x next_y check_cells = Ok true <->
   forall cx cy, In (cx, cy) check_cells ->
     exists c, get_cell (heightmap g) cx cy = Ok (Some c) /\ is_walkable c = true /\
               inject_Z (height c * tileheight g) <= vz (hero_world_pos (hero g))).
Proof.
  unfold can_move_to.
  induction check_cells as [|[cx cy] rest IH].
  - simpl. split; [eauto|]. split; [intros _ cx cy []|reflexivity].
  - destruct IH as [[b Hb] IH]. simpl.
    destruct (get_cell_rect (heightmap g) cx cy Hr) as [o [Ho _]]. rewrite Ho. simpl.
    destruct o as [c|].
    + destruct (is_walkable c) eqn:W; simpl.
      * destruct (Qltb (vz (hero_world_pos (hero g))) (inject_Z (height c * tileheight g))) eqn:L.
        -- split; [eauto|]. split; [discriminate|]. intro H.
           destruct (H cx cy (or_introl eq_refl)) as [c' [Hc' [_ Hle]]].
           rewrite Ho in Hc'. inversion Hc'; subst c'.
           apply Qltb_spec in L. exfalso. apply (Qlt_not_le _ _ L Hle).
        -- split; [eauto|]. rewrite IH. split.
           ++ intros H cx' cy' [Heq|Hin].
              ** inversion Heq; subst. exists c. split; [exact Ho|]. split; [exact W|].
                 apply Qltb_false in L. exact L.
              ** exact (H cx' cy' Hin).
           ++ intros H cx' cy' Hin. exact (H cx' cy' (or_intror Hin)).
      * split; [eauto|]. split; [discriminate|]. intro H.
        destruct (H cx cy (or_introl eq_refl)) as [c' [Hc' [Hw _]]].
        rewrite Ho in Hc'. inversion Hc'; subst c'. congruence.
    + split; [eauto|]. split; [discriminate|]. intro H.
      destruct (H cx cy (or_introl eq_refl)) as [c' [Hc' _]]. congruence.
Qed.

Lemma can_move_to_spec_witness :
  let g := mkGame (mkHero (mkV3 0 0 16) (mkBBox (mkV3 0 0 16) 2 1) None false true false) []
                  (mkHeightmap 0 0 [[mkCell 1 0; mkCell 2 0]]) 16 in
  rectangular (heightmap g) /\
  (exists b, can_move_to g 0 0 [(0, 0); (1, 0)]%Z = Ok b) /\
  (can_move_to g 0 0 [(0, 0); (1, 0)]%Z = Ok true <->
   forall cx cy, In (cx, cy) [(0, 0); (1, 0)]%Z ->
     exists c, get_cell (heightmap g) cx cy = Ok (Some c) /\ is_walkable c = true /\
               inject_Z (height c * tileheight g) <= vz (hero_world_pos (hero g))).
Proof.
  cbv zeta.
  assert (Hr : rectangular (mkHeightmap 0 0 [[mkCell 1 0; mkCell 2 0]])).
  { unfold rectangular. simpl. repeat constructor. }
  split; [exact Hr|].
  exact (can_move_to_spec (mkGame (mkHero (mkV3 0 0 16) (mkBBox (mkV3 0 0 16) 2 1) None false true false) []
                  (mkHeightmap 0 0 [[mkCell 1 0; mkCell 2 0]]) 16) 0 0 [(0, 0); (1, 0)]%Z Hr).
Defined.

(** X10: [handle_jump] never changes the hero's Z or [touch_ground].  A
    jump is active when [is_jumping] was already set or SPACE is pressed
    while touching the ground.  An active jump with [current_jump < 24]
    raises [TypeError] after [current_jump += 2]; an active jump at 24 or
    more is ended with [current_jump = 0]; otherwise nothing changes. *)
Theorem handle_jump_spec (space : bool) (s : JumpState) :
  let active := j_is_jumping s || (space && j_touch_ground s) in
  let '(s', exc) := handle_jump space s in
  j_z s' = j_z s /\ j_touch_ground s' = j_touch_ground s /\
  ((exc = Some Exn.TypeError /\ active = true /\ (j_current_jump s < HERO_MAX_JUMP)%Z /\
    j_is_jumping s' = true /\ j_current_jump s' = (j_current_jump s + 2)%Z) \/
   (exc = None /\ active = true /\ (HERO_MAX_JUMP <= j_current_jump s)%Z /\
    j_is_jumping s' = false /\ j_current_jump s' = 0%Z) \/
   (exc = None /\ active = false /\ s' = s)).
Proof.
  destruct s as [tg jmp cj z]. unfold handle_jump. simpl.
  destruct space, tg, jmp; simpl;
    destruct (cj <? HERO_MAX_JUMP)%Z eqn:L; simpl;
    try (apply Z.ltb_lt in L); try (apply Z.ltb_ge in L);
    repeat split; 
    first [ left; repeat split; assumption
          | right; left; repeat split; assumption
          | right; right; repeat split ].
Qed.

Lemma Qabs_cases' (q : Q) : (0 <= q /\ Qabs q == q) \/ (q < 0 /\ Qabs q == - q).
Proof.
  destruct (Qlt_le_dec q 0) as [H|H].
  - right. split; [exact H|]. apply Qabs_neg. apply Qlt_le_weak. exact H.
  - left. split; [exact H|]. apply Qabs_pos. exact H.
Qed.

(** X11: [update_facing_direction] keeps the facing direction only when
    there is no movement; otherwise it points along the sign of the
    dominant axis, and a tie [|dx| = |dy|] faces vertically. *)
Theorem facing_direction_spec (facing : string) (dx dy : Q) :
  let f := update_facing_direction facing dx dy in
  (f = facing /\ dx == 0 /\ dy == 0) \/
  (f = "LEFT" /\ dx < 0 /\ Qabs dy < Qabs dx) \/
  (f = "RIGHT" /\ 0 < dx /\ Qabs dy < Qabs dx) \/
  (f = "UP" /\ dy < 0 /\ Qabs dx <= Qabs dy) \/
  (f = "DOWN" /\ 0 < dy /\ Qabs dx <= Qabs dy).
Proof.
  cbv zeta. unfold update_facing_direction.
  destruct (Qeq_bool dx 0 && Qeq_bool dy 0) eqn:Z0.
  { left. apply andb_true_iff in Z0. destruct Z0 as [A B].
    apply Qeq_bool_iff in A, B. auto. }
  assert (Hnz : ~ (dx == 0 /\ dy == 0)).
  { intros [A B]. apply Qeq_bool_iff in A, B. rewrite A, B in Z0. discriminate. }
  pose proof (Qabs_nonneg dy) as Ny.
  destruct (Qltb (Qabs dy) (Qabs dx)) eqn:D.
  - apply Qltb_spec in D. destruct (Qltb dx 0) eqn:S.
    + right; left. apply Qltb_spec in S. auto.
    + right; right; left. apply Qltb_false in S. split; [reflexivity|]. split; [|exact D].
      rewrite (Qabs_pos dx S) in D. lra.
  - apply Qltb_false in D. destruct (Qltb dy 0) eqn:S.
    + right; right; right; left. apply Qltb_spec in S. auto.
    + right; right; right; right. apply Qltb_false in S. split; [reflexivity|]. split; [|exact D].
      destruct (Qlt_le_dec 0 dy) as [Hp|Hp]; [exact Hp|].
      exfalso. apply Hnz. rewrite (Qabs_pos dy S) in D.
      destruct (Qabs_cases' dx) as [[Px Ax]|[Px Ax]]; split; lra.
Qed.

End GameMoreFacts.

Module GravityMoreFacts.
Import Heightmap Gravity.

Lemma corner_tiles_shape (g : Game) :
  exists lx ly bx by_ rx ry tx ty,
    BBox.get_corners_world (hero_bbox (hero g)) (tileheight g) = [(lx, ly); (bx, by_); (rx, ry); (tx, ty)].
Proof.
  unfold BBox.get_corners_world. destruct (BBox.get_bounding_box _ _) as [[[x y] w] h].
  do 8 eexists. reflexivity.
Qed.

(** X12: with a tile height of 0, [apply_gravity] raises
    [ZeroDivisionError] from the corner computation, whatever the hero's
    state, jumping or not. *)
Theorem gravity_zero_tile_height (g : Game) (H : tileheight g = 0%Z) :
  apply_gravity g = Raise ZeroDivisionError.
Proof.
  unfold apply_gravity, corner_tiles. rewrite H.
  destruct (corner_tiles_shape g) as [lx [ly [bx [by_ [rx [ry [tx [ty E]]]]]]]].
  rewrite H in E. rewrite E. reflexivity.
Qed.

Lemma gravity_zero_tile_height_witness :
  tileheight (mkGame (mkHero (mkV3 0 0 0) (mkBBox (mkV3 0 0 0) 2 1) None false true true) []
                     (mkHeightmap 0 0 [[mkCell 0 0]]) 0) = 0%Z /\
  apply_gravity (mkGame (mkHero (mkV3 0 0 0) (mkBBox (mkV3 0 0 0) 2 1) None false true true) []
                        (mkHeightmap 0 0 [[mkCell 0 0]]) 0) = Raise ZeroDivisionError.
Proof. split; [reflexivity|]. apply gravity_zero_tile_height. reflexivity. Defined.

(** X13: for a room whose heightmap has no rows and a non-zero tile
    height, the corner tiles clamp to (0, 0); [apply_gravity] then returns
    the game unchanged for a jumping hero and raises [IndexError] at the
    [cells[y][x]] lookup otherwise. *)
Theorem gravity_empty_heightmap (g : Game) (Hc : cells (heightmap g) = []) (Ht : tileheight g <> 0%Z) :
  apply_gravity g = if is_jumping (hero g) then Ok g else Raise IndexError.
Proof.
  unfold apply_gravity, corner_tiles.
  destruct (corner_tiles_shape g) as [lx [ly [bx [by_ [rx [ry [tx [ty E]]]]]]]].
  rewrite E. unfold py_floordiv_int. apply Z.eqb_neq in Ht. rewrite Ht. simpl.
  assert (W : get_width (heightmap g) = 0%Z) by (unfold get_width; rewrite Hc; reflexivity).
  assert (Hh : get_height (heightmap g) = 0%Z) by (unfold get_height; rewrite Hc; reflexivity).
  rewrite W, Hh.
  assert (C : forall v : Z, clamp v 0 = 0%Z) by (intro v; unfold clamp; lia).
  rewrite !C.
  destruct (is_jumping (hero g)); [reflexivity|].
  unfold max_ground_height. cbv zeta. unfold cell_height. rewrite Hc. reflexivity.
Qed.

Lemma gravity_empty_heightmap_witness :
  let g := mkGame (mkHero (mkV3 0 0 5) (mkBBox (mkV3 0 0 5) 2 1) None false false false) []
                  (mkHeightmap 0 0 []) 16 in
  cells (heightmap g) = [] /\ tileheight g <> 0%Z /\
  apply_gravity g = if is_jumping (hero g) then Ok g else Raise IndexError.
Proof.
  cbv zeta. split; [reflexivity|]. split; [discriminate|].
  apply gravity_empty_heightmap; [reflexivity|discriminate].
Defined.

Lemma clamp_range (v n : Z) : (0 < n)%Z -> (0 <= clamp v n < n)%Z.
Proof. unfold clamp. lia. Qed.

Lemma cell_height_ok (hm : Heightmap) (x y : Z) :
  HeightmapLoad.rectangular hm ->
  (0 <= y < get_height hm)%Z -> (0 <= x < get_width hm)%Z ->
  exists q, cell_height (cells hm) x y = Ok q.
Proof.
  intros Hr Hy Hx. unfold cell_height, py_index, get_height in *.
  destruct (y <? 0)%Z eqn:Ey; [apply Z.ltb_lt in Ey; lia|].
  destruct (nth_error (cells hm) (Z.to_nat y)) as [row|] eqn:Ny.
  2: { apply nth_error_None in Ny. lia. }
  simpl. destruct (x <? 0)%Z eqn:Ex; [apply Z.ltb_lt in Ex; lia|].
  assert (Hrow : Z.of_nat (length row) = get_width hm).
  { unfold HeightmapLoad.rectangular in Hr. rewrite Forall_forall in Hr.
    apply Hr. eapply nth_error_In. exact Ny. }
  destruct (nth_error row (Z.to_nat x)) as [c|] eqn:Nx.
  2: { apply nth_error_None in Nx. lia. }
  eexists. reflexivity.
Qed.



(** X23: on a room with a non-zero tile height and a non-empty
    rectangular heightmap, every clamped corner tile is on the grid, so the
    four terrain lookups succeed and [apply_gravity] for a hero that is
    not jumping raises [TypeError], wherever the hero stands. *)
Theorem walking_hero_type_error (g : Game)
  (Hj : is_jumping (hero g) = false) (Ht : tileheight g <> 0%Z)
  (Hr : HeightmapLoad.rectangular (heightmap g))
  (Hh : (0 < get_height (heightmap g))%Z) (Hw : (0 < get_width (heightmap g))%Z) :
  apply_gravity g = Raise TypeError.
Proof.
  unfold apply_gravity, corner_tiles.
  destruct (corner_tiles_shape g) as [lx [ly [bx [by_ [rx [ry [tx [ty E]]]]]]]].
  rewrite E. unfold py_floordiv_int. apply Z.eqb_neq in Ht. rewrite Ht. simpl. rewrite Hj.
  unfold max_ground_height. cbv zeta.
  repeat match goal with
         | |- context [cell_height (cells (heightmap g)) (clamp ?x ?w) (clamp ?y ?h)] =>
           destruct (cell_height_ok (heightmap g) (clamp x w) (clamp y h) Hr
                       (clamp_range _ _ Hh) (clamp_range _ _ Hw)) as [? ->]; simpl
         end.
  reflexivity.
Qed.

Lemma walking_hero_type_error_witness :
  let g := mkGame (mkHero (mkV3 40 (-8) 5) (mkBBox (mkV3 40 (-8) 5) 2 1) None false false false) []
                  (mkHeightmap 0 0 [[mkCell 1 0; mkCell 2 0]; [mkCell 0 0; mkCell 3 1]]) 16 in
  apply_gravity g = Raise TypeError.
Proof.
  cbv zeta. apply walking_hero_type_error; [reflexivity|discriminate| |reflexivity|reflexivity].
  repeat constructor.
Defined.

End GravityMoreFacts.

Module HeightmapLoadFacts.
Import Heightmap HeightmapLoad.
Import Strings.String.
Local Open Scope string_scope.

Lemma map_py_ok {A B} (f : A -> PyResult B) (l : list A) (r : list B) :
  map_py f l = POk r -> Forall2 (fun a b => f a = POk b) l r.
Proof.
  revert r. induction l as [|a l IH]; intros r H; simpl in H.
  - inversion H. constructor.
  - destruct (f a) as [b|e] eqn:Fa; [|discriminate]. simpl in H.
    destruct (map_py f l) as [bs|e] eqn:Fl; [|discriminate]. simpl in H. inversion H; subst.
    constructor; [exact Fa|]. apply IH. reflexivity.
Qed.

Lemma map_py_ext {A B} (f g : A -> PyResult B) (l : list A) :
  (forall a, In a l -> f a = g a) -> map_py f l = map_py g l.
Proof.
  induction l as [|a l IH]; intro H; [reflexivity|]. simpl.
  rewrite (H a (or_introl eq_refl)), IH; [reflexivity|].
  intros a' Ha'. exact (H a' (or_intror Ha')).
Qed.

Lemma Forall2_Forall_r {A B} (R : A -> B -> Prop) (P : B -> Prop) (l : list A) (r : list B) :
  (forall a b, R a b -> P b) -> Forall2 R l r -> Forall P r.
Proof. intros HP H. induction H; constructor; eauto. Qed.

Lemma Forall2_nth {A B} (R : A -> B -> Prop) (l : list A) (r : list B) (n : nat) (a : A) :
  Forall2 R l r -> nth_error l n = Some a -> exists b, nth_error r n = Some b /\ R a b.
Proof.
  intro H. revert n. induction H as [|a0 b0 l r Hab H IH]; intros [|n] Hn; simpl in Hn |- *;
    try discriminate.
  - inversion Hn; subst. eauto.
  - exact (IH n Hn).
Qed.

Lemma in_py_range (n y : Z) : In y (py_range n) <-> (0 <= y < n)%Z.
Proof.
  unfold py_range. rewrite in_map_iff. split.
  - intros [k [<- Hk]]. apply in_seq in Hk. lia.
  - intro H. exists (Z.to_nat y). split; [lia|]. apply in_seq. lia.
Qed.

Lemma length_py_range (n : Z) : List.length (py_range n) = Z.to_nat n.
Proof. unfold py_range. rewrite length_map, length_seq. reflexivity. Qed.

Lemma nth_py_range (n : Z) (k : nat) :
  (k < Z.to_nat n)%nat -> nth_error (py_range n) k = Some (Z.of_nat k).
Proof.
  intro H. unfold py_range. rewrite nth_error_map, nth_error_seq.
  apply Nat.ltb_lt in H. rewrite H. reflexivity.
Qed.

Definition cell_in_range (c : HeightmapCell) : Prop :=
  (0 <= height c <= 15 /\ 0 <= walkable c <= 15)%Z.

Lemma int16_range (c : Ascii.ascii) (v : Z) : int16 c = POk v -> (0 <= v <= 15)%Z.
Proof.
  unfold int16. set (n := Z.of_nat (Ascii.nat_of_ascii c)).
  destruct ((48 <=? n) && (n <=? 57))%Z eqn:D1.
  { intro H; inversion H; subst. apply andb_true_iff in D1. rewrite Z.leb_le, Z.leb_le in D1. lia. }
  destruct ((97 <=? n) && (n <=? 102))%Z eqn:D2.
  { intro H; inversion H; subst. apply andb_true_iff in D2. rewrite Z.leb_le, Z.leb_le in D2. lia. }
  destruct ((65 <=? n) && (n <=? 70))%Z eqn:D3.
  { intro H; inversion H; subst. apply andb_true_iff in D3. rewrite Z.leb_le, Z.leb_le in D3. lia. }
  discriminate.
Qed.

Lemma parse_cell_range (v : Strings.String.string) (c : HeightmapCell) :
  parse_cell v = POk c -> cell_in_range c.
Proof.
  unfold parse_cell.
  destruct (str_index _ 0) as [c0|]; [|discriminate]. simpl.
  destruct (int16 c0) as [w|] eqn:W; [|discriminate]. simpl.
  destruct (str_index _ 1) as [c1|]; [|discriminate]. simpl.
  destruct (int16 c1) as [h|] eqn:Hh; [|discriminate]. simpl.
  intro H. inversion H; subst. apply int16_range in W, Hh. unfold cell_in_range. simpl. lia.
Qed.

Lemma cell_at_range (hv : list Strings.String.string) (w y x : Z) (c : HeightmapCell) :
  cell_at hv w y x = POk c -> cell_in_range c.
Proof.
  unfold cell_at. destruct (_ <? _)%Z.
  - destruct (nth_error _ _); [apply parse_cell_range|discriminate].
  - intro H. inversion H; subst. unfold cell_in_range. simpl. lia.
Qed.

Lemma load_rows (hv : list Strings.String.string) (w h : Z) (cs : list (list HeightmapCell)) :
  load_cells hv w h = POk cs ->
  Forall2 (fun y row => map_py (fun x => cell_at hv w y x) (py_range w) = POk row) (py_range h) cs.
Proof. intro H. apply map_py_ok in H. exact H. Qed.

Lemma load_row_cells (hv : list Strings.String.string) (w y : Z) (row : list HeightmapCell) :
  map_py (fun x => cell_at hv w y x) (py_range w) = POk row ->
  Forall2 (fun x c => cell_at hv w y x = POk c) (py_range w) row.
Proof. apply map_py_ok. Qed.

(** X14: a heightmap loaded without an exception has [height] rows of
    [width] cells each, and every cell's height and walkable values are
    single hex digits (0 to 15), including the default cell (0, 4). *)
Theorem load_cells_shape (hv : list Strings.String.string) (w h : Z) (cs : list (list HeightmapCell))
  (H : load_cells hv w h = POk cs) :
  List.length cs = Z.to_nat h /\
  Forall (fun row => List.length row = Z.to_nat w) cs /\
  Forall (Forall cell_in_range) cs.
Proof.
  pose proof (load_rows hv w h cs H) as R.
  split; [rewrite <- (Forall2_length R); apply length_py_range|]. split.
  - apply (Forall2_Forall_r _ _ _ _ (fun y row Hr => eq_trans (eq_sym (Forall2_length (load_row_cells hv w y row Hr))) (length_py_range w)) R).
  - eapply Forall2_Forall_r; [|exact R]. intros y row Hr.
    eapply Forall2_Forall_r; [|exact (load_row_cells hv w y row Hr)].
    intros x c Hc. exact (cell_at_range hv w y x c Hc).
Qed.

Lemma load_cells_shape_witness :
  load_cells ["0x4000"%string; "0x21"%string] 2 2 =
    POk [[mkCell 0 4; mkCell 1 2]; [mkCell 0 4; mkCell 0 4]] /\
  List.length [[mkCell 0 4; mkCell 1 2]; [mkCell 0 4; mkCell 0 4]] = Z.to_nat 2 /\
  Forall (fun row => List.length row = Z.to_nat 2) [[mkCell 0 4; mkCell 1 2]; [mkCell 0 4; mkCell 0 4]] /\
  Forall (Forall cell_in_range) [[mkCell 0 4; mkCell 1 2]; [mkCell 0 4; mkCell 0 4]].
Proof.
  split; [vm_compute; reflexivity|].
  apply (load_cells_shape ["0x4000"%string; "0x21"%string]). vm_compute. reflexivity.
Defined.

(** X15: on a heightmap loaded without an exception, [get_cell x y] for
    [0 <= x < width] and [0 <= y < height] raises nothing and returns the
    cell parsed from [hex_values[y * width + x]], or the default cell
    [HeightmapCell(0, 4)] (height 0, not walkable) when the data is too
    short. *)
Theorem load_get_cell (left top w h : Z) (hv : list string) (hm : Heightmap) (x y : Z)
  (H : load_from_hex_values left top w h hv = POk hm)
  (Hx : (0 <= x < w)%Z) (Hy : (0 <= y < h)%Z) :
  exists c, get_cell hm x y = Ok (Some c) /\
    ((y * w + x < Z.of_nat (List.length hv))%Z ->
       exists v, nth_error hv (Z.to_nat (y * w + x)) = Some v /\ parse_cell v = POk c) /\
    ((Z.of_nat (List.length hv) <= y * w + x)%Z -> c = mkCell 0 4).
Proof.
  unfold load_from_hex_values in H.
  destruct (load_cells hv w h) as [cs|e] eqn:L; [|discriminate]. simpl in H. inversion H; subst hm; clear H.
  pose proof (load_rows hv w h cs L) as R.
  assert (Hlen : List.length cs = Z.to_nat h) by (rewrite <- (Forall2_length R); apply length_py_range).
  destruct (Forall2_nth _ _ _ (Z.to_nat y) y R) as [row [Nrow Hrow]].
  { rewrite nth_py_range by lia. f_equal. lia. }
  pose proof (load_row_cells hv w y row Hrow) as Rc.
  assert (Hrl : List.length row = Z.to_nat w) by (rewrite <- (Forall2_length Rc); apply length_py_range).
  destruct (Forall2_nth _ _ _ (Z.to_nat x) x Rc) as [c [Nc Hc]].
  { rewrite nth_py_range by lia. f_equal. lia. }
  exists c. split.
  - unfold get_cell. simpl.
    assert (Wd : get_width (mkHeightmap left top cs) = w).
    { unfold get_width. simpl. destruct cs as [|row0 cs']; [simpl in Hlen; lia|].
      assert (Hr0 : nth_error (row0 :: cs') 0 = Some row0) by reflexivity.
      destruct (Forall2_nth _ _ _ 0 0%Z R) as [row0' [N0 H0]].
      { rewrite nth_py_range by lia. reflexivity. }
      rewrite Hr0 in N0. inversion N0; subst row0'.
      rewrite <- (Forall2_length (load_row_cells hv w 0 row0 H0)), length_py_range. lia. }
    rewrite Wd.
    replace ((0 <=? y) && (y <? Z.of_nat (List.length cs)) && (0 <=? x) && (x <? w))%Z with true
      by (symmetry; rewrite !andb_true_iff, !Z.leb_le, !Z.ltb_lt; lia).
    unfold py_index. replace (y <? 0)%Z with false by (symmetry; apply Z.ltb_ge; lia).
    rewrite Nrow. simpl. replace (x <? 0)%Z with false by (symmetry; apply Z.ltb_ge; lia).
    rewrite Nc. reflexivity.
  - unfold cell_at in Hc. split.
    + intro Hi. apply Z.ltb_lt in Hi. rewrite Hi in Hc.
      destruct (nth_error hv _) as [v|]; [|discriminate]. exists v. auto.
    + intro Hi. replace (y * w + x <? Z.of_nat (List.length hv))%Z with false in Hc
        by (symmetry; apply Z.ltb_ge; lia).
      inversion Hc. reflexivity.
Qed.

Lemma load_get_cell_witness :
  exists c, get_cell (mkHeightmap 0 0 [[mkCell 0 4; mkCell 1 2]; [mkCell 0 4; mkCell 0 4]]) 1 0 = Ok (Some c) /\
    ((0 * 2 + 1 < Z.of_nat (List.length ["0x4000"; "0x21"]))%Z ->
       exists v, nth_error ["0x4000"; "0x21"] (Z.to_nat (0 * 2 + 1)) = Some v /\ parse_cell v = POk c) /\
    ((Z.of_nat (List.length ["0x4000"; "0x21"]) <= 0 * 2 + 1)%Z -> c = mkCell 0 4).
Proof.
  apply (load_get_cell 0 0 2 2 ["0x4000"; "0x21"]); [vm_compute; reflexivity|lia|lia].
Defined.

(** X16: data beyond the first [width * height] values is never read:
    loading from [hex_values] and from its first [width * height] values
    gives the same result, the same exception included. *)
Theorem load_ignores_extra_values (hv : list string) (w h : Z) :
  load_cells hv w h = load_cells (firstn (Z.to_nat (w * h)) hv) w h.
Proof.
  unfold load_cells. apply map_py_ext. intros y Hy. apply map_py_ext. intros x Hx.
  apply in_py_range in Hy, Hx. unfold cell_at.
  assert (Hi : (0 <= y * w + x < w * h)%Z) by nia.
  rewrite length_firstn, nth_error_firstn.
  replace (Z.to_nat (y * w + x) <? Z.to_nat (w * h))%nat with true
    by (symmetry; apply Nat.ltb_lt; lia).
  replace (y * w + x <? Z.of_nat (Nat.min (Z.to_nat (w * h)) (List.length hv)))%Z
    with (y * w + x <? Z.of_nat (List.length hv))%Z; [reflexivity|].
  destruct (Z.ltb_spec (y * w + x) (Z.of_nat (List.length hv)));
    destruct (Z.ltb_spec (y * w + x) (Z.of_nat (Nat.min (Z.to_nat (w * h)) (List.length hv)))); lia.
Qed.

End HeightmapLoadFacts.

Module WarpMoreFacts.
Import Warp DoWarp.

(** X17: for a warp joining two different rooms, [get_target_room] maps
    each of them to the other: applied twice it gives the room back, and
    it never returns the room it is given; any third room is sent to
    room1. *)
Theorem target_room_swap (w : Warp) (r : Z) (Hne : room1 w <> room2 w) :
  ((r = room1 w \/ r = room2 w) ->
   get_target_room w (get_target_room w r) = r /\ get_target_room w r <> r) /\
  (r <> room1 w -> r <> room2 w -> get_target_room w r = room1 w).
Proof.
  unfold get_target_room. split.
  - intros [->| ->].
    + rewrite Z.eqb_refl. destruct (room2 w =? room1 w)%Z eqn:E; [apply Z.eqb_eq in E; congruence|].
      split; [reflexivity|congruence].
    + destruct (room2 w =? room1 w)%Z eqn:E; [apply Z.eqb_eq in E; congruence|].
      rewrite Z.eqb_refl. split; [reflexivity|congruence].
  - intros H1 _. apply Z.eqb_neq in H1. rewrite H1. reflexivity.
Qed.

Lemma target_room_swap_witness :
  let w := mkWarp 1 2 10 10 2 2 2 2 in
  room1 w <> room2 w /\
  ((5 = room1 w \/ 5 = room2 w) ->
   get_target_room w (get_target_room w 5) = 5 /\ get_target_room w 5 <> 5)%Z /\
  (5 <> room1 w -> 5 <> room2 w -> get_target_room w 5 = room1 w)%Z.
Proof.
  cbv zeta. split; [discriminate|]. apply target_room_swap. discriminate.
Defined.

(** X18: [do_warp] for a warp between two different rooms, fired from one
    of them: unless it is one of the two skipped raft transitions
    (168 to 167, 169 to 168), it switches to the target room and then asks
    [get_destination] with the NEW room number, so the destination tile is
    the origin of the rectangle of the room being left, minus 12 (moved by
    (-1, +1) when the target is room 168 or 169); the following
    [set_world_pos] call then raises [TypeError]. *)
Theorem do_warp_destination (w : Warp) (cur : Z) (Hne : room1 w <> room2 w)
  (Hcur : cur = room1 w \/ cur = room2 w) :
  let target := get_target_room w cur in
  let a := if ((target =? 168) || (target =? 169))%Z then 1%Z else 0%Z in
  let '(ox, oy) := if (cur =? room1 w)%Z then (x w, y w) else (x2 w, y2 w) in
  do_warp w cur target =
    if ((cur =? 168) && (target =? 167) || (cur =? 169) && (target =? 168))%Z then (Skipped, None)
    else (Reached target ((ox - 12 - a)%Z, (oy - 12 + a)%Z), Some Exn.TypeError).
Proof.
  cbv zeta. unfold do_warp, get_destination, get_target_room.
  assert (E21 : (room2 w =? room1 w)%Z = false) by (apply Z.eqb_neq; congruence).
  destruct Hcur as [-> | ->].
  - rewrite Z.eqb_refl, E21.
    destruct ((room1 w =? 168) && (room2 w =? 167))%Z; [reflexivity|].
    destruct ((room1 w =? 169) && (room2 w =? 168))%Z; [reflexivity|]. simpl.
    destruct ((room2 w =? 168) || (room2 w =? 169))%Z; f_equal; f_equal; f_equal; lia.
  - rewrite E21, Z.eqb_refl.
    destruct ((room2 w =? 168) && (room1 w =? 167))%Z; [reflexivity|].
    destruct ((room2 w =? 169) && (room1 w =? 168))%Z; [reflexivity|]. simpl.
    destruct ((room1 w =? 168) || (room1 w =? 169))%Z; f_equal; f_equal; f_equal; lia.
Qed.

Lemma do_warp_destination_witness :
  do_warp (mkWarp 1 2 10 10 2 2 2 2) 1 2 = (Reached 2 ((-2)%Z, (-2)%Z), Some Exn.TypeError).
Proof.
  exact (do_warp_destination (mkWarp 1 2 10 10 2 2 2 2) 1 ltac:(discriminate) (or_introl eq_refl)).
Defined.

End WarpMoreFacts.

Module BBoxMoreFacts.
Import BBox BBoxMore.

(** X19: the centre of [get_bounding_box] is the box position plus half
    the unshrunk side [tile_h * size] on each axis (the 2-pixel margins
    cancel), and it is the midpoint of both diagonals of
    [get_corners_world]. *)
Theorem center_spec (b : BoundingBox) (tile_h : Z) :
  let '(cx, cy) := get_center b tile_h in
  cx == vx (world_pos b) + inject_Z tile_h * size_in_tiles b / 2 /\
  cy == vy (world_pos b) + inject_Z tile_h * size_in_tiles b / 2 /\
  match get_corners_world b tile_h with
  | [(lx, ly); (bx, by_); (rx, ry); (tx, ty)] =>
      cx == (lx + rx) / 2 /\ cy == (ly + ry) / 2 /\ cx == (tx + bx) / 2 /\ cy == (ty + by_) / 2
  | _ => False
  end.
Proof.
  unfold get_center, get_corners_world, get_bounding_box, MARGIN. cbv zeta.
  repeat split; field.
Qed.

End BBoxMoreFacts.

Module DrawableMoreFacts.
Import Drawable DrawableMore.

Definition fresh (w : World) : Prop :=
  NoDup (locs w) /\ Forall (fun l => (l < next_loc w)%nat) (locs w).

Lemma nth_error_replace_other {A} (l : list A) (i j : nat) (v : A) :
  i <> j -> nth_error (replace_nth l i v) j = nth_error l j.
Proof.
  revert i j. induction l as [|h t IH]; intros [|i] [|j] H; simpl; try reflexivity; try congruence.
  apply IH. congruence.
Qed.

Lemma locs_replace (w : World) (i : nat) (a v : Actor) :
  nth_error (actors w) i = Some a -> pos_loc v = pos_loc a -> prev_loc v = prev_loc a ->
  flat_map (fun a => [pos_loc a; prev_loc a]) (replace_nth (actors w) i v) = locs w.
Proof.
  unfold locs. generalize (actors w) as l. intro l. revert i.
  induction l as [|h t IH]; intros [|i] N Hp Hq; simpl in N |- *; try reflexivity.
  - inversion N; subst. rewrite Hp, Hq. reflexivity.
  - rewrite (IH i N Hp Hq). reflexivity.
Qed.

Lemma modify_pos_shape (w : World) (i : nat) (f : Vector3 -> Vector3) :
  actors (modify_pos w i f) = actors w /\ next_loc (modify_pos w i f) = next_loc w.
Proof. unfold modify_pos. destruct (nth_error (actors w) i); split; reflexivity. Qed.

Lemma rebind_shape (w : World) (i : nat) :
  locs (rebind_bbox w i) = locs w /\ next_loc (rebind_bbox w i) = next_loc w /\
  store (rebind_bbox w i) = store w /\
  (forall j, i <> j -> nth_error (actors (rebind_bbox w i)) j = nth_error (actors w) j).
Proof.
  unfold rebind_bbox. destruct (nth_error (actors w) i) as [a|] eqn:N; [|auto].
  destruct (bbox_loc a); [|auto]. unfold locs at 1. simpl.
  split; [apply (locs_replace w i a); auto|]. split; [reflexivity|]. split; [reflexivity|].
  intros j Hij. apply nth_error_replace_other. exact Hij.
Qed.

Lemma fresh_transfer (w w' : World) :
  locs w' = locs w -> next_loc w' = next_loc w -> fresh w -> fresh w'.
Proof. intros L N [Hn Hl]. unfold fresh. rewrite L, N. split; assumption. Qed.

Lemma modify_pos_locs (w : World) (i : nat) (f : Vector3 -> Vector3) :
  locs (modify_pos w i f) = locs w.
Proof. unfold locs. destruct (modify_pos_shape w i f) as [A _]. rewrite A. reflexivity. Qed.

Lemma step_fresh (w : World) (op : Op) : fresh w -> fresh (step w op).
Proof.
  intro H. destruct op; simpl;
    try (apply (fresh_transfer w); [apply modify_pos_locs|apply modify_pos_shape|exact H]).
  - destruct H as [Hn Hl]. unfold fresh, locs. simpl. rewrite flat_map_app. simpl.
    unfold locs in Hn, Hl. split.
    + apply NoDup_app; [exact Hn| |].
      * repeat constructor; simpl; [lia|intros []].
      * intros l Hin Hin'. rewrite Forall_forall in Hl. specialize (Hl l Hin).
        destruct Hin' as [<-|[<-|[]]]; lia.
    + apply Forall_app. split.
      * eapply Forall_impl; [|exact Hl]. simpl. intros l Hlt. lia.
      * repeat constructor; lia.
  - destruct (rebind_shape (modify_pos w i (fun _ => mkV3 x y z)) i) as [L [N' _]].
    apply (fresh_transfer w).
    + rewrite L. apply modify_pos_locs.
    + rewrite N'. apply modify_pos_shape.
    + exact H.
  - destruct (nth_error (actors w) i); [|exact H].
    apply (fresh_transfer w); [reflexivity|reflexivity|exact H].
  - destruct (rebind_shape w i) as [L [N' _]]. apply (fresh_transfer w); [exact L|exact N'|exact H].
Qed.

Lemma exec_fresh (ops : list Op) : forall w, fresh w -> fresh (exec w ops).
Proof.
  induction ops as [|op ops IH]; intros w H; [exact H|]. simpl. apply IH. apply step_fresh. exact H.
Qed.

Lemma fresh_empty : fresh empty_world.
Proof. split; constructor. Qed.

Lemma locs_in (w : World) (j : nat) (a : Actor) :
  nth_error (actors w) j = Some a -> In (pos_loc a) (locs w) /\ In (prev_loc a) (locs w).
Proof.
  intro N. apply nth_error_In in N. unfold locs. split; apply in_flat_map; exists a; simpl; auto.
Qed.

Lemma locs_distinct (l : list Actor) (i j : nat) (ai aj : Actor) :
  NoDup (flat_map (fun a => [pos_loc a; prev_loc a]) l) -> i <> j ->
  nth_error l i = Some ai -> nth_error l j = Some aj ->
  pos_loc ai <> pos_loc aj /\ pos_loc ai <> prev_loc aj /\
  prev_loc ai <> pos_loc aj /\ prev_loc ai <> prev_loc aj.
Proof.
  revert i j. induction l as [|h t IH]; intros [|i] [|j] Hn Hij Ni Nj; simpl in Ni, Nj; try discriminate;
    try congruence; simpl in Hn; apply NoDup_cons_iff in Hn; destruct Hn as [Hp Hn];
    apply NoDup_cons_iff in Hn; destruct Hn as [Hq Hn].
  - inversion Ni; subst ai. apply nth_error_In in Nj.
    assert (Ip : In (pos_loc aj) (flat_map (fun a => [pos_loc a; prev_loc a]) t))
      by (apply in_flat_map; exists aj; simpl; auto).
    assert (Iq : In (prev_loc aj) (flat_map (fun a => [pos_loc a; prev_loc a]) t))
      by (apply in_flat_map; exists aj; simpl; auto).
    repeat split; intro E; [apply Hp; right; rewrite E; exact Ip|apply Hp; right; rewrite E; exact Iq
                            |apply Hq; rewrite E; exact Ip|apply Hq; rewrite E; exact Iq].
  - inversion Nj; subst aj. apply nth_error_In in Ni.
    assert (Ip : In (pos_loc ai) (flat_map (fun a => [pos_loc a; prev_loc a]) t))
      by (apply in_flat_map; exists ai; simpl; auto).
    assert (Iq : In (prev_loc ai) (flat_map (fun a => [pos_loc a; prev_loc a]) t))
      by (apply in_flat_map; exists ai; simpl; auto).
    repeat split; intro E; [apply Hp; right; rewrite <- E; exact Ip|apply Hq; rewrite <- E; exact Ip
                            |apply Hp; right; rewrite <- E; exact Iq|apply Hq; rewrite <- E; exact Iq].
  - apply (IH i j Hn); [congruence|exact Ni|exact Nj].
Qed.

Lemma own_locs_distinct (w : World) (j : nat) (a : Actor) :
  NoDup (locs w) -> nth_error (actors w) j = Some a -> pos_loc a <> prev_loc a.
Proof.
  unfold locs. generalize (actors w) as l. intros l Hn. revert j.
  induction l as [|h t IH]; intros [|j] N; simpl in N, Hn; try discriminate.
  - inversion N; subst. apply NoDup_cons_iff in Hn. destruct Hn as [Hp _]. intro E. apply Hp. left. auto.
  - apply NoDup_cons_iff in Hn. destruct Hn as [_ Hn]. apply NoDup_cons_iff in Hn. destruct Hn as [_ Hn].
    exact (IH Hn j N).
Qed.

Lemma modify_pos_other (w : World) (i j : nat) (f : Vector3 -> Vector3) (a : Actor) :
  NoDup (locs w) -> i <> j -> nth_error (actors w) j = Some a ->
  store (modify_pos w i f) (pos_loc a) = store w (pos_loc a) /\
  store (modify_pos w i f) (prev_loc a) = store w (prev_loc a).
Proof.
  intros Hn Hij Nj. unfold modify_pos. destruct (nth_error (actors w) i) as [ai|] eqn:Ni; [|auto].
  destruct (locs_distinct (actors w) i j ai a Hn Hij Ni Nj) as [D1 [D2 _]].
  simpl. unfold store_write.
  destruct (Nat.eqb_spec (pos_loc a) (pos_loc ai)); [congruence|].
  destruct (Nat.eqb_spec (prev_loc a) (pos_loc ai)); [congruence|]. auto.
Qed.

(** X20: actors never share position objects.  In every world reached
    from the empty one, an operation on actor [i] (or the construction of
    a new actor) leaves every other actor [j] in place, with its
    [_world_pos] and its [prev_world_pos] unchanged. *)
Theorem actors_do_not_share_positions (ops : list Op) (op : Op) (j : nat) (a : Actor) :
  let w := exec empty_world ops in
  nth_error (actors w) j = Some a -> op_target op <> Some j ->
  nth_error (actors (step w op)) j = Some a /\
  get_world_pos (step w op) a = get_world_pos w a /\
  store (step w op) (prev_loc a) = store w (prev_loc a).
Proof.
  cbv zeta. set (w := exec empty_world ops).
  destruct (exec_fresh ops empty_world fresh_empty) as [Hn Hl]. fold w in Hn, Hl.
  intros Nj Ht. unfold get_world_pos.
  assert (Oth : forall i f, Some i <> Some j ->
            nth_error (actors (modify_pos w i f)) j = Some a /\
            store (modify_pos w i f) (pos_loc a) = store w (pos_loc a) /\
            store (modify_pos w i f) (prev_loc a) = store w (prev_loc a)).
  { intros i f Hij. destruct (modify_pos_shape w i f) as [A _]. rewrite A.
    split; [exact Nj|]. apply (modify_pos_other w i j f a); [exact Hn|congruence|exact Nj]. }
  destruct op; simpl in Ht |- *; try (apply Oth; exact Ht).
  - (* Construct *)
    rewrite nth_error_app1 by (apply nth_error_Some; congruence). split; [exact Nj|].
    destruct (locs_in w j a Nj) as [Ip Iq]. rewrite Forall_forall in Hl.
    pose proof (Hl _ Ip). pose proof (Hl _ Iq). unfold store_write.
    destruct (Nat.eqb_spec (pos_loc a) (S (next_loc w))); [lia|].
    destruct (Nat.eqb_spec (pos_loc a) (next_loc w)); [lia|].
    destruct (Nat.eqb_spec (prev_loc a) (S (next_loc w))); [lia|].
    destruct (Nat.eqb_spec (prev_loc a) (next_loc w)); [lia|]. auto.
  - (* SetWorldPos *)
    destruct (rebind_shape (modify_pos w i (fun _ => mkV3 x y z)) i) as [_ [_ [S R]]].
    rewrite S, R by congruence. apply Oth. exact Ht.
  - (* UpdatePrevPosition *)
    destruct (nth_error (actors w) i) as [ai|] eqn:Ni; [|auto].
    simpl. split; [exact Nj|].
    destruct (locs_distinct (actors w) i j ai a Hn ltac:(congruence) Ni Nj) as [_ [_ [D3 D4]]].
    unfold store_write.
    destruct (Nat.eqb_spec (pos_loc a) (prev_loc ai)); [congruence|].
    destruct (Nat.eqb_spec (prev_loc a) (prev_loc ai)); [congruence|]. auto.
  - (* UpdateBBoxOwnPosition *)
    destruct (rebind_shape w i) as [_ [_ [S R]]]. rewrite S, R by congruence. auto.
Qed.

Lemma actors_do_not_share_positions_witness :
  let w := exec empty_world [Construct 1 1 0; Construct 5 5 0] in
  nth_error (actors w) 0 = Some (mkActor 0 1 (Some 0%nat)) /\
  nth_error (actors (step w (SetWorldX 1 9))) 0 = Some (mkActor 0 1 (Some 0%nat)) /\
  get_world_pos (step w (SetWorldX 1 9)) (mkActor 0 1 (Some 0%nat)) = get_world_pos w (mkActor 0 1 (Some 0%nat)) /\
  store (step w (SetWorldX 1 9)) 1%nat = store w 1%nat.
Proof.
  cbv zeta. split; [reflexivity|].
  apply (actors_do_not_share_positions [Construct 1 1 0; Construct 5 5 0] (SetWorldX 1 9) 0
           (mkActor 0 1 (Some 0%nat))); [reflexivity|discriminate].
Defined.

(** X21: [update_prev_position] on an actor of a reachable world leaves
    its position unchanged and makes its [get_position_delta] zero: the
    copy goes to a separate [prev_world_pos] object. *)
Theorem update_prev_zero_delta (ops : list Op) (j : nat) (a : Actor) :
  let w := exec empty_world ops in
  nth_error (actors w) j = Some a ->
  let w' := step w (UpdatePrevPosition j) in
  get_world_pos w' a = get_world_pos w a /\
  vx (get_position_delta w' a) == 0 /\ vy (get_position_delta w' a) == 0 /\
  vz (get_position_delta w' a) == 0.
Proof.
  cbv zeta. set (w := exec empty_world ops).
  destruct (exec_fresh ops empty_world fresh_empty) as [Hn _]. fold w in Hn.
  intro Nj. pose proof (own_locs_distinct w j a Hn Nj) as D.
  simpl. rewrite Nj. unfold get_world_pos, get_position_delta. simpl. unfold store_write.
  destruct (Nat.eqb_spec (pos_loc a) (prev_loc a)); [congruence|].
  rewrite Nat.eqb_refl. simpl. repeat split; ring.
Qed.

Lemma update_prev_zero_delta_witness :
  let w := exec empty_world [Construct 1 1 0; AddWorldX 0 3] in
  nth_error (actors w) 0 = Some (mkActor 0 1 (Some 0%nat)) /\
  let w' := step w (UpdatePrevPosition 0) in
  get_world_pos w' (mkActor 0 1 (Some 0%nat)) = get_world_pos w (mkActor 0 1 (Some 0%nat)) /\
  vx (get_position_delta w' (mkActor 0 1 (Some 0%nat))) == 0 /\
  vy (get_position_delta w' (mkActor 0 1 (Some 0%nat))) == 0 /\
  vz (get_position_delta w' (mkActor 0 1 (Some 0%nat))) == 0.
Proof.
  cbv zeta. split; [reflexivity|].
  exact (update_prev_zero_delta [Construct 1 1 0; AddWorldX 0 3] 0 (mkActor 0 1 (Some 0%nat)) eq_refl).
Defined.

End DrawableMoreFacts.
